(** * The recipe model of foodee-api (src/models/recipe.model.ts)

    A shallow embedding of the recipe schema, of its instance methods
    (view projections, rating roll-up, rating references) and of its static
    category aggregation, together with the part of the object-document
    mapper (schema validation, persistence, reference population) and of the
    aggregation pipeline that these operations go through.

    Conventions
    - a JavaScript object is a finite map from property names to values
      ([gmap string value]); [delete obj.k] is [delete k obj];
    - a JavaScript [Number] is a rational ([Q]); an average is kept in
      lowest terms ([Qred]) so that equal numbers are equal terms. What a
      property says of an average it says where the double-precision
      mean of the database is the exact one, or of the mean whichever
      way it was rounded;
    - a string is the sequence of its characters, each in the range
      U+0000 to U+00FF: one [ascii] per character, with the code of the
      character as its number (NO-BREAK SPACE is [ascii_of_nat 160], the
      letter E with grave is [ascii_of_nat 200]); strings with other
      characters are not modelled;
    - a collection of the data store is the list of its documents in
      insertion order;
    - an instance method is a function of the receiver [this] and of the
      data store that returns its outcome, the receiver as the call left it
      and the data store as the call left it. *)

From Stdlib Require Import QArith Lqa Ascii String.
From Stdlib Require Qcanon.
From stdpp Require Import gmap strings pretty list fin_maps.

Set Warnings "-register-all,-clear-no-such-hyp".
Open Scope string_scope.

(** ** JavaScript values and objects *)

Inductive value : Type :=
  | VUndefined
  | VNull
  | VBool (b : bool)
  | VNum (q : Q)
  | VStr (s : string)
  | VId (id : string)                  (* an ObjectId *)
  | VArr (l : list value)
  | VObj (o : gmap string value).

Abbreviation obj := (gmap string value).

Definition ObjectId := string.

(** [{ ...o, k: v }] when [v] is present, [o] otherwise: a path that holds
    no value is not a property of the serialised document. *)
Definition set_opt (k : string) (v : option value) (o : obj) : obj :=
  match v with
  | Some x => <[k := x]> o
  | None => o
  end.

Definition VInt (n : nat) : value := VNum (inject_Z (Z.of_nat n)).

(** ** Outcomes *)

Inductive ValidatorKind :=
  | KRequired
  | KMin
  | KMax
  | KMinlength
  | KMaxlength
  | KUserDefined (msg : string).

Inductive error :=
  | TypeError (msg : string)
  | CastError (path : string) (rawValue : string)
  | ValidationError (errors : list (string * ValidatorKind)).

Inductive result (A : Type) :=
  | Ok (a : A)
  | Throw (e : error).
Arguments Ok {A} a.
Arguments Throw {A} e.

(** ** Strings: the [trim] and [lowercase] setters

    [String.prototype.trim] and [toLowerCase] on the characters U+0000 to
    U+00FF. The white space and line terminators of that range are TAB,
    LF, VT, FF, CR, SPACE and NO-BREAK SPACE (U+00A0); the characters with
    a lower case are A to Z and U+00C0 to U+00DE without the
    multiplication sign U+00D7, each 32 below its lower case. *)

Definition is_white (c : ascii) : bool :=
  let n := nat_of_ascii c in
  ((9 <=? n) && (n <=? 13) || (n =? 32) || (n =? 160))%nat.

Fixpoint trimStart (s : string) : string :=
  match s with
  | EmptyString => EmptyString
  | String c s' => if is_white c then trimStart s' else s
  end.

Definition trim (s : string) : string :=
  String.rev (trimStart (String.rev (trimStart s))).

Definition lower_ascii (c : ascii) : ascii :=
  let n := nat_of_ascii c in
  if ((65 <=? n) && (n <=? 90)
      || (192 <=? n) && (n <=? 222) && negb (n =? 215))%nat
  then ascii_of_nat (n + 32)%nat else c.

Fixpoint toLowerCase (s : string) : string :=
  match s with
  | EmptyString => EmptyString
  | String c s' => String (lower_ascii c) (toLowerCase s')
  end.

(** ** ObjectIds

    An id reads back ([toString]) as 24 hexadecimal digits in lower case:
    the two digits of each of its 12 bytes. *)

Definition is_hex_digit (c : ascii) : bool :=
  let n := nat_of_ascii c in
  ((48 <=? n) && (n <=? 57) || (65 <=? n) && (n <=? 70)
   || (97 <=? n) && (n <=? 102))%nat.

Definition hex_digit (n : nat) : ascii :=
  ascii_of_nat (if (n <? 10)%nat then 48 + n else 87 + n)%nat.

Fixpoint string_forallb (f : ascii -> bool) (s : string) : bool :=
  match s with
  | EmptyString => true
  | String c s' => f c && string_forallb f s'
  end.

Fixpoint toHexString (bytes : string) : string :=
  match bytes with
  | EmptyString => EmptyString
  | String c s' =>
      let n := nat_of_ascii c in
      String (hex_digit (n / 16)) (String (hex_digit (n mod 16)) (toHexString s'))
  end.

(** The driver, as far as the cast to ObjectId depends on it: which
    strings of 12 characters it takes for the 12 bytes of an id (every
    one in its first versions, those of 12 bytes in UTF-8 later, none in
    its latest). *)
Record Driver := mkDriver {
  twelve_bytes : string -> bool;
}.

(** ** Data model *)

(** An image document, with the paths the upload controller creates it
    with (src/controllers/image.controller.ts:11-15). *)
Record IImage := mkImage {
  img_id : ObjectId;
  publicId : string;
  url : string;
  img_type : string;
}.

(** Modelled from the spec: the method [toEditObject] of an image
    (src/models/image.model.ts) is missing; it "projects an image to
    {id, url} for client consumption". *)
Definition toEditObject (x : IImage) : obj :=
  <["id" := VStr (img_id x)]> (<["url" := VStr (url x)]> ∅).

(** The serialised form of a populated image inside a recipe. *)
Definition image_toJSON (x : IImage) : value :=
  VObj (<["id" := VStr (img_id x)]>
       (<["publicId" := VStr (publicId x)]>
       (<["url" := VStr (url x)]>
       (<["type" := VStr (img_type x)]> ∅)))).

(** A rating document: the two paths the roll-up reads
    (recipe.model.ts:268 and :274). *)
Record IRating := mkRating {
  rating_id : ObjectId;
  recipeId : ObjectId;
  rateValue : Q;
}.

(** [banners?: Array<string|IImage>] (recipe.model.ts:31): a banner of a
    document in memory is a raw reference or, once populated, the image. *)
Inductive banner :=
  | BRef (id : ObjectId)
  | BImg (img : IImage).

Definition banner_ref (b : banner) : ObjectId :=
  match b with
  | BRef id => id
  | BImg img => img_id img
  end.

Record Ingredient := mkIngredient {
  quantity : option string;
  ingredient : option string;
}.

(** A recipe document. [B] is the type of a banner: [ObjectId] for the
    document as stored, [banner] for the document in memory. *)
Record recipe_of (B : Type) := mkRecipe {
  _id : ObjectId;
  name : option string;
  description : option string;
  status : option bool;                (* true: public ~ false: private *)
  category : option string;
  createdBy : option ObjectId;
  servings : option Q;
  time : option Q;
  tags : list string;
  banners : list B;
  ingredients : list Ingredient;
  methods : list string;
  rating : obj;
  ratings : list ObjectId;
  createdAt : option string;
  updatedAt : option string;
  score : option Q;                    (* text-search relevance, transient *)
}.
Arguments mkRecipe {B}.
Arguments _id {B} _.
Arguments name {B} _.
Arguments description {B} _.
Arguments status {B} _.
Arguments category {B} _.
Arguments createdBy {B} _.
Arguments servings {B} _.
Arguments time {B} _.
Arguments tags {B} _.
Arguments banners {B} _.
Arguments ingredients {B} _.
Arguments methods {B} _.
Arguments rating {B} _.
Arguments ratings {B} _.
Arguments createdAt {B} _.
Arguments updatedAt {B} _.
Arguments score {B} _.

Abbreviation StoredRecipe := (recipe_of ObjectId).
Abbreviation IRecipe := (recipe_of banner).

Definition set_banners {B C} (bs : list C) (r : recipe_of B) : recipe_of C :=
  mkRecipe (_id r) (name r) (description r) (status r) (category r)
    (createdBy r) (servings r) (time r) (tags r) bs (ingredients r)
    (methods r) (rating r) (ratings r) (createdAt r) (updatedAt r) (score r).

Definition set_rating {B} (x : obj) (r : recipe_of B) : recipe_of B :=
  mkRecipe (_id r) (name r) (description r) (status r) (category r)
    (createdBy r) (servings r) (time r) (tags r) (banners r) (ingredients r)
    (methods r) x (ratings r) (createdAt r) (updatedAt r) (score r).

Definition set_ratings {B} (xs : list ObjectId) (r : recipe_of B) : recipe_of B :=
  mkRecipe (_id r) (name r) (description r) (status r) (category r)
    (createdBy r) (servings r) (time r) (tags r) (banners r) (ingredients r)
    (methods r) (rating r) xs (createdAt r) (updatedAt r) (score r).

Definition set_timestamps {B} (now : string) (r : recipe_of B) : recipe_of B :=
  mkRecipe (_id r) (name r) (description r) (status r) (category r)
    (createdBy r) (servings r) (time r) (tags r) (banners r) (ingredients r)
    (methods r) (rating r) (ratings r)
    (Some (default now (createdAt r))) (Some now) (score r).

(** The user context a projection is personalised for: its [id] and its
    saved-list membership check (src/models/user.model.ts is an external
    collaborator; the record is its interface as the recipe model calls
    it, recipe.model.ts:253 and :259). *)
Record IUser := mkUser {
  user_id : ObjectId;
  didSaveRecipe : IRecipe -> bool;
}.

(** The data store: one list of documents per collection. *)
Record Db := mkDb {
  images : list IImage;
  recipes : list StoredRecipe;
  ratingDocs : list IRating;
}.

(** ** The schema (recipe.model.ts:56-144)

    The options a path of [RecipeFields] is declared with. *)
Record PathOptions := mkOptions {
  opt_required : bool;
  opt_min : option Q;
  opt_max : option Q;
  opt_minlength : option nat;
  opt_maxlength : option nat;
  opt_trim : bool;
  opt_lowercase : bool;
}.

Module RecipeFields.

(* name: { type: String, required: [true, 'is required'], trim: true } *)
Definition name : PathOptions :=
  {| opt_required := true; opt_min := None; opt_max := None;
     opt_minlength := None; opt_maxlength := None;
     opt_trim := true; opt_lowercase := false |}.

(* category: { type: String, lowercase: true, trim: true, required } *)
Definition category : PathOptions :=
  {| opt_required := true; opt_min := None; opt_max := None;
     opt_minlength := None; opt_maxlength := None;
     opt_trim := true; opt_lowercase := true |}.

(* description: { type: String, trim: [true, 'is required'] } *)
Definition description : PathOptions :=
  {| opt_required := false; opt_min := None; opt_max := None;
     opt_minlength := None; opt_maxlength := None;
     opt_trim := true; opt_lowercase := false |}.

(* servings: { type: Number, min: 1, max: 16, required } *)
Definition servings : PathOptions :=
  {| opt_required := true; opt_min := Some 1%Q; opt_max := Some 16%Q;
     opt_minlength := None; opt_maxlength := None;
     opt_trim := false; opt_lowercase := false |}.

(* time: { type: Number, min: 1, max: 200 } *)
Definition time : PathOptions :=
  {| opt_required := false; opt_min := Some 1%Q; opt_max := Some 200%Q;
     opt_minlength := None; opt_maxlength := None;
     opt_trim := false; opt_lowercase := false |}.

(* createdBy: { type: ObjectId, ref: 'user', required } *)
Definition createdBy : PathOptions :=
  {| opt_required := true; opt_min := None; opt_max := None;
     opt_minlength := None; opt_maxlength := None;
     opt_trim := false; opt_lowercase := false |}.

(* banners: { type: [{ type: ObjectId, ref: 'image', autopopulate: true }],
              minlength: 1, maxlength: 4, required: true } *)
Definition banners : PathOptions :=
  {| opt_required := true; opt_min := None; opt_max := None;
     opt_minlength := Some 1%nat; opt_maxlength := Some 4%nat;
     opt_trim := false; opt_lowercase := false |}.

(* ingredients: { type: [{ quantity: { type: String, required, trim },
                           ingredient: { type: String, required, trim } }],
                  default: [] } *)
Definition quantity : PathOptions :=
  {| opt_required := true; opt_min := None; opt_max := None;
     opt_minlength := None; opt_maxlength := None;
     opt_trim := true; opt_lowercase := false |}.

Definition ingredient : PathOptions :=
  {| opt_required := true; opt_min := None; opt_max := None;
     opt_minlength := None; opt_maxlength := None;
     opt_trim := true; opt_lowercase := false |}.

(* methods: { type: [String], required: true } *)
Definition methods : PathOptions :=
  {| opt_required := true; opt_min := None; opt_max := None;
     opt_minlength := None; opt_maxlength := None;
     opt_trim := false; opt_lowercase := false |}.

(* tags: { type: [String], trim: true, lowercase: true } *)
Definition tags : PathOptions :=
  {| opt_required := false; opt_min := None; opt_max := None;
     opt_minlength := None; opt_maxlength := None;
     opt_trim := true; opt_lowercase := true |}.

(* rating: { type: { avg: Number, total: Number },
             default: { avgRating: 0, total: 0 } } *)
Definition rating_default : obj :=
  <["avgRating" := VNum 0%Q]> (<["total" := VNum 0%Q]> ∅).

End RecipeFields.

(** ** The object-document mapper

    A schema option takes effect on a path when the schema type of the
    path defines it: [trim], [lowercase], [minlength] and [maxlength] are
    options of String paths, [min] and [max] of Number paths, [required]
    of every path. An option a schema type does not define is kept in the
    declaration and read by nothing. *)

Definition apply_string_setters (o : PathOptions) (s : string) : string :=
  let s1 := if opt_trim o then trim s else s in
  if opt_lowercase o then toLowerCase s1 else s1.

Definition is_empty_string (s : string) : bool :=
  match s with EmptyString => true | _ => false end.

(** The first validator of a String path that rejects its value. *)
Definition validate_string (path : string) (o : PathOptions) (v : option string)
    : list (string * ValidatorKind) :=
  match v with
  | None => if opt_required o then [(path, KRequired)] else []
  | Some s =>
      if opt_required o && is_empty_string s then [(path, KRequired)]
      else if match opt_minlength o with
              | Some n => (String.length s <? n)%nat
              | None => false
              end then [(path, KMinlength)]
      else if match opt_maxlength o with
              | Some n => (n <? String.length s)%nat
              | None => false
              end then [(path, KMaxlength)]
      else []
  end.

(** The first validator of a Number path that rejects its value. *)
Definition validate_number (path : string) (o : PathOptions) (v : option Q)
    : list (string * ValidatorKind) :=
  match v with
  | None => if opt_required o then [(path, KRequired)] else []
  | Some q =>
      if match opt_min o with
         | Some m => negb (Qle_bool m q)
         | None => false
         end then [(path, KMin)]
      else if match opt_max o with
              | Some m => negb (Qle_bool q m)
              | None => false
              end then [(path, KMax)]
      else []
  end.

Definition validate_objectid (path : string) (o : PathOptions) (v : option ObjectId)
    : list (string * ValidatorKind) :=
  match v with
  | None => if opt_required o then [(path, KRequired)] else []
  | Some _ => []
  end.

(** Modelled from the spec: the static [checkImagesExist] of the image
    model (src/models/image.model.ts) is missing; "given a set of candidate
    image references, returns whether all resolve to existing stored
    images". *)
Definition checkImagesExist (refs : list ObjectId) (db : Db) : bool :=
  forallb (fun id => bool_decide (id ∈ img_id <$> images db)) refs.

(** The paths of the ingredient sub-documents, ["ingredients.<i>.<path>"]. *)
Fixpoint validate_ingredients (i : nat) (l : list Ingredient)
    : list (string * ValidatorKind) :=
  match l with
  | [] => []
  | x :: l' =>
      validate_string ("ingredients." +:+ pretty i +:+ ".quantity")
        RecipeFields.quantity (quantity x)
      ++ validate_string ("ingredients." +:+ pretty i +:+ ".ingredient")
        RecipeFields.ingredient (ingredient x)
      ++ validate_ingredients (S i) l'
  end.

Definition depopulate (this : IRecipe) : StoredRecipe :=
  set_banners (banner_ref <$> banners this) this.

Fixpoint upsert (d : StoredRecipe) (l : list StoredRecipe) : list StoredRecipe :=
  match l with
  | [] => [d]
  | x :: l' => if decide (_id x = _id d) then d :: l' else x :: upsert d l'
  end.

Definition set_recipes (rs : list StoredRecipe) (db : Db) : Db :=
  mkDb (images db) rs (ratingDocs db).

(** Reference population: a reference that resolves is replaced by its
    image, one that does not is dropped from the populated array. *)
Definition populate (db : Db) (id : ObjectId) : option IImage :=
  List.find (fun x => bool_decide (img_id x = id)) (images db).

Definition hydrate (autopopulate : bool) (db : Db) (d : StoredRecipe) : IRecipe :=
  set_banners
    (if autopopulate then BImg <$> omap (populate db) (banners d)
     else BRef <$> banners d) d.

(** [Recipe.findById(id, {}, {autopopulate})] at an id that is an ObjectId
    already (the cast of a raw argument is [castObjectId]); the banners
    path is declared [autopopulate: true] (recipe.model.ts:92), and a
    query may switch it off (collection.controller.ts:24). *)
Definition findById (id : ObjectId) (autopopulate : bool) (db : Db) : option IRecipe :=
  hydrate autopopulate db <$>
    List.find (fun d => bool_decide (_id d = id)) (recipes db).

Section Odm.

(** Whether the [required] validator of an Array path rejects the empty
    array (it does up to version 4 of the mapper, and only asks for an
    array from version 5 on). Every result below holds for both. *)
Variable array_required_nonempty : bool.

(** The driver in use. Every result below holds for all. *)
Variable driver : Driver.

(** What the mapper accepts where an ObjectId is expected (the [new
    ObjectId(value)] of its cast): a string of 24 hexadecimal digits,
    which stands for the id it spells, or a string of 12 characters that
    the driver takes for the 12 bytes of an id; anything else fails, and
    the mapper reports a CastError. *)
Definition castObjectId (raw : string) : option string :=
  if (String.length raw =? 24)%nat && string_forallb is_hex_digit raw
  then Some (toLowerCase raw)
  else if (String.length raw =? 12)%nat && twelve_bytes driver raw
  then Some (toHexString raw)
  else None.

(** The validators of an Array path: [required] alone. *)
Definition validate_array {A} (path : string) (o : PathOptions) (v : list A)
    : list (string * ValidatorKind) :=
  match v with
  | [] => if opt_required o && array_required_nonempty
          then [(path, KRequired)] else []
  | _ => []
  end.

(** The banners path: its declared validators, then the validator added
    by [RecipeSchema.path('banners').validate] (recipe.model.ts:175-180). *)
Definition validate_banners (v : list ObjectId) (db : Db)
    : list (string * ValidatorKind) :=
  match validate_array "banners" RecipeFields.banners v with
  | [] => if checkImagesExist v db then []
          else [("banners", KUserDefined "Image not exists")]
  | errs => errs
  end.

(** Document validation, path by path in the order of the schema. *)
Definition validate (this : IRecipe) (db : Db) : list (string * ValidatorKind) :=
  validate_string "name" RecipeFields.name (name this)
  ++ validate_string "category" RecipeFields.category (category this)
  ++ validate_string "description" RecipeFields.description (description this)
  ++ validate_number "servings" RecipeFields.servings (servings this)
  ++ validate_number "time" RecipeFields.time (time this)
  ++ validate_objectid "createdBy" RecipeFields.createdBy (createdBy this)
  ++ validate_banners (banner_ref <$> banners this) db
  ++ validate_ingredients 0 (ingredients this)
  ++ validate_array "methods" RecipeFields.methods (methods this).

(** [this.save()]: validate, stamp ([timestamps: true]) and write the
    document under its [_id]. The write is that of a document saved for
    the first time. For a document that was loaded the mapper sends the
    modified paths only and fails when the stored document is gone; the
    properties below say of such a save that it is called, on which
    receiver, and what it leaves untouched, not what it writes. *)
Definition save (now : string) (this : IRecipe) (db : Db)
    : result IRecipe * IRecipe * Db :=
  match validate this db with
  | [] =>
      let this' := set_timestamps now this in
      (Ok this', this', set_recipes (upsert (depopulate this') (recipes db)) db)
  | errs => (Throw (ValidationError errs), this, db)
  end.

(** ** Creation

    The fields handed to [Recipe.create]: the paths of the schema (the
    mapper drops any other property). *)
Record RecipeInput := mkInput {
  i_name : option string;
  i_category : option string;
  i_description : option string;
  i_servings : option Q;
  i_time : option Q;
  i_createdBy : option ObjectId;
  i_banners : list ObjectId;
  i_ingredients : list Ingredient;
  i_methods : list string;
  i_rating : option obj;
  i_ratings : list ObjectId;
  i_tags : list string;
}.

Definition cast_ingredient (x : Ingredient) : Ingredient :=
  mkIngredient
    (apply_string_setters RecipeFields.quantity <$> quantity x)
    (apply_string_setters RecipeFields.ingredient <$> ingredient x).

(** [new Recipe(fields)]: setters applied, defaults filled in, a fresh
    [_id]. The banner references are kept as given: it is a query that
    resolves them. The options [trim] and [lowercase] of [tags] sit on the
    Array path, not on its String elements, and leave the tags as given.
    [status] is not a path of the schema. *)
Definition new_document (newId : ObjectId) (input : RecipeInput) : IRecipe :=
  {| _id := newId;
     name := apply_string_setters RecipeFields.name <$> i_name input;
     description :=
       apply_string_setters RecipeFields.description <$> i_description input;
     status := None;
     category := apply_string_setters RecipeFields.category <$> i_category input;
     createdBy := i_createdBy input;
     servings := i_servings input;
     time := i_time input;
     tags := i_tags input;
     banners := BRef <$> i_banners input;
     ingredients := cast_ingredient <$> i_ingredients input;
     methods := i_methods input;
     rating := default RecipeFields.rating_default (i_rating input);
     ratings := i_ratings input;
     createdAt := None;
     updatedAt := None;
     score := None |}.

(** [Recipe.create(fields)] is [new Recipe(fields).save()]. *)
Definition create (newId : ObjectId) (now : string) (input : RecipeInput) (db : Db)
    : result IRecipe * Db :=
  let '(r, _, db') := save now (new_document newId input) db in (r, db').

(** ** Serialisation (recipe.model.ts:146-170) *)

Definition banner_value (b : banner) : value :=
  match b with
  | BRef id => VId id
  | BImg img => image_toJSON img
  end.

Definition ingredient_value (x : Ingredient) : value :=
  VObj (set_opt "quantity" (VStr <$> quantity x)
       (set_opt "ingredient" (VStr <$> ingredient x) ∅)).

(** The paths of the document, as a plain object. *)
Definition document_paths (this : IRecipe) : obj :=
  <["_id" := VId (_id this)]>
  (set_opt "name" (VStr <$> name this)
  (set_opt "description" (VStr <$> description this)
  (set_opt "status" (VBool <$> status this)
  (set_opt "category" (VStr <$> category this)
  (set_opt "createdBy" (VId <$> createdBy this)
  (set_opt "servings" (VNum <$> servings this)
  (set_opt "time" (VNum <$> time this)
  (<["tags" := VArr (VStr <$> tags this)]>
  (<["banners" := VArr (banner_value <$> banners this)]>
  (<["ingredients" := VArr (ingredient_value <$> ingredients this)]>
  (<["methods" := VArr (VStr <$> methods this)]>
  (<["rating" := VObj (rating this)]>
  (<["ratings" := VArr (VId <$> ratings this)]>
  (set_opt "createdAt" (VStr <$> createdAt this)
  (set_opt "updatedAt" (VStr <$> updatedAt this)
  (set_opt "score" (VNum <$> score this) ∅)))))))))))))))).

(** The virtual [image_url] (recipe.model.ts:182-188). A banner that is
    still a raw reference has no [url] property. *)
Definition image_url (this : IRecipe) : value :=
  match banners this with
  | [] => VStr ""
  | BImg img :: _ => VStr (url img)
  | BRef _ :: _ => VUndefined
  end.

(** [virtuals: true]: the virtuals [id] and [image_url] are added; a
    virtual whose getter yields [undefined] is left out. *)
Definition applyVirtuals (this : IRecipe) (ret : obj) : obj :=
  <["id" := VStr (_id this)]>
    match image_url this with
    | VUndefined => ret
    | v => <["image_url" := v]> ret
    end.

(** The [transform] of both [toJSON] and [toObject]. *)
Definition transform (ret : obj) : obj :=
  delete "updatedAt" (delete "ratings" (delete "_id" ret)).

Definition toJSON (this : IRecipe) : obj :=
  transform (applyVirtuals this (document_paths this)).

Definition toObject (this : IRecipe) : obj :=
  transform (applyVirtuals this (document_paths this)).

(** ** Instance methods *)

(** recipe.model.ts:252-254; [==] between the owner reference and the
    user's id compares their strings, and an absent owner equals none. *)
Definition isCreatedBy (this : IRecipe) (user : IUser) : bool :=
  match createdBy this with
  | Some owner => bool_decide (owner = user_id user)
  | None => false
  end.

(** recipe.model.ts:256-262 *)
Definition toJSONFor (this : IRecipe) (user : IUser) : obj :=
  <["createdByUser" := VBool (isCreatedBy this user)]>
  (<["savedByUser" := VBool (didSaveRecipe user this)]>
  (toJSON this)).

Definition view_for (this : IRecipe) (user : option IUser) : obj :=
  match user with
  | Some u => toJSONFor this u
  | None => toJSON this
  end.

(** recipe.model.ts:206-221 *)
Definition toThumbnailFor (this : IRecipe) (user : option IUser) : obj :=
  let recipe := view_for this user in
  let recipe := delete "createdBy" recipe in
  let recipe := delete "banners" recipe in
  let recipe := delete "createdAt" recipe in
  let recipe := delete "ingredients" recipe in
  let recipe := delete "methods" recipe in
  let recipe := delete "servings" recipe in
  let recipe := delete "description" recipe in
  let recipe := delete "category" recipe in
  let recipe := delete "tags" recipe in
  let recipe := delete "time" recipe in
  let recipe := delete "status" recipe in
  recipe.

(** recipe.model.ts:223-239 *)
Definition toSearchResultFor (this : IRecipe) (user : option IUser) : obj :=
  let recipe := view_for this user in
  let recipe := delete "banners" recipe in
  let recipe := delete "createdAt" recipe in
  let recipe := delete "createdBy" recipe in
  let recipe := delete "ingredients" recipe in
  let recipe := delete "methods" recipe in
  let recipe := delete "servings" recipe in
  let recipe := delete "description" recipe in
  let recipe := delete "category" recipe in
  let recipe := delete "tags" recipe in
  let recipe := delete "time" recipe in
  let recipe := delete "status" recipe in
  let recipe := delete "score" recipe in
  recipe.

(** [x.toEditObject()] on an element of [this.banners]: a raw reference
    has no such method. *)
Definition banner_toEditObject (x : banner) : option obj :=
  match x with
  | BImg img => Some (toEditObject img)
  | BRef _ => None
  end.

(** recipe.model.ts:241-250 *)
Definition toEditObj (this : IRecipe) : result obj :=
  let base := toObject this in
  match mapM banner_toEditObject (banners this) with
  | None => Throw (TypeError "x.toEditObject is not a function")
  | Some bs =>
      let recipe := <["banners" := VArr (VObj <$> bs)]> base in
      let recipe := delete "createdBy" recipe in
      let recipe := delete "createdAt" recipe in
      Ok recipe
  end.

(** recipe.model.ts:284-290: mutates the receiver, returns it, and leaves
    the data store alone. [includes] compares the argument as it is given
    with the references as they read back; [push] casts the argument to
    an ObjectId, and throws when it cannot. *)
Definition addRating (ratingId : string) (this : IRecipe) (db : Db)
    : result IRecipe * IRecipe * Db :=
  if bool_decide (ratingId ∈ ratings this) then (Ok this, this, db)
  else
    match castObjectId ratingId with
    | Some id =>
        let this' := set_ratings (ratings this ++ [id]) this in
        (Ok this', this', db)
    | None => (Throw (CastError "ratings" ratingId), this, db)
    end.

(** ** The aggregation pipeline *)

(** [$group]: one group per distinct key, in the order the keys first
    occur, each with its documents in input order. *)
Definition group_by {K A} `{EqDecision K} (key : A -> K) (l : list A)
    : list (K * list A) :=
  (fun k => (k, filter (fun a => key a = k) l)) <$> remove_dups (key <$> l).

Definition sum_Q (l : list Q) : Q := foldr Qplus 0%Q l.

(** [$avg]: the mean of the values, [null] when there is none. The mean
    here is the exact one, where the database has the double nearest to
    it: the two are the same number when the values are integers whose
    sum stays within 2^53 and whose mean is an integer. *)
Definition avg (l : list Q) : value :=
  match l with
  | [] => VNull
  | _ => VNum (Qred (sum_Q l / inject_Z (Z.of_nat (length l))))
  end.

(** The pipeline of [updateRating] (recipe.model.ts:265-278):
    [$match {recipeId}], then [$group {_id: '$recipeId', avg, total}]. *)
Definition rating_group (k : ObjectId) (members : list IRating) : obj :=
  <["_id" := VId k]>
  (<["avg" := avg (rateValue <$> members)]>
  (<["total" := VInt (length members)]> ∅)).

Definition aggregate_ratings (id : ObjectId) (db : Db) : list obj :=
  let matched := filter (fun x => recipeId x = id) (ratingDocs db) in
  (fun g => rating_group g.1 g.2) <$> group_by recipeId matched.

(** recipe.model.ts:264-282. [delete results[0]._id] on an empty result
    dereferences [undefined]. *)
Definition updateRating (now : string) (this : IRecipe) (db : Db)
    : result IRecipe * IRecipe * Db :=
  let results := aggregate_ratings (_id this) db in
  match results with
  | [] => (Throw (TypeError "Cannot convert undefined or null to object"),
           this, db)
  | r0 :: _ =>
      let r0 := delete "_id" r0 in
      let this := set_rating r0 this in
      save now this db
  end.

(** The pipeline of [getCategories] (recipe.model.ts:293-312):
    [$match {status: true, category: {$ne: null}}], then
    [$group {_id: "$category", total: {$sum: 1},
             image_url: {$last: {$arrayElemAt: ["$banners", 0]}}}]. *)
Definition matches_public (r : StoredRecipe) : Prop :=
  status r = Some true ∧ category r ≠ None.

#[local] Instance matches_public_dec r : Decision (matches_public r).
Proof. unfold matches_public. apply _. Defined.

(** [{$arrayElemAt: ["$banners", 0]}] *)
Definition first_banner (r : StoredRecipe) : option ObjectId :=
  head (banners r).

Definition ref_value (x : option ObjectId) : value :=
  match x with
  | Some id => VId id
  | None => VNull
  end.

Definition category_value (k : option string) : value :=
  match k with
  | Some c => VStr c
  | None => VNull
  end.

Definition category_group (k : option string) (members : list StoredRecipe) : obj :=
  <["_id" := category_value k]>
  (<["total" := VInt (length members)]>
  (<["image_url" := ref_value (last members ≫= first_banner)]> ∅)).

(** recipe.model.ts:292-314; the [$limit] stage is commented out and
    [limit] is read by nothing. *)
Definition getCategories (limit : option nat) (db : Db) : list obj :=
  let matched := filter matches_public (recipes db) in
  (fun g => category_group g.1 g.2) <$> group_by category matched.

(** ** The collection controller: [preloadRecipe]
    (collection.controller.ts:23-33)

    The request as the handler uses it, and what the handler passes to
    [next]. *)
Inductive HttpError :=
  | HTTP404Error (msg : string)
  | HTTP403Error.

Inductive Next :=
  | NextOk
  | NextError (e : HttpError)
  | NextCastError (rawValue : string).

Record Request := mkRequest {
  req_user : option IUser;
  req_recipe : option IRecipe;
}.

(** The handler once the route parameter is cast to the id [recipeId]:
    [Recipe.findById(recipeId, {}, {autopopulate: false})], then either
    [throw new HTTP404Error('Recipe not found')], which [.catch(next)]
    hands to [next], or [req.recipe = recipe; next()]. *)
Definition preloadRecipe (req : Request) (recipeId : ObjectId) (db : Db)
    : Request * Next :=
  match findById recipeId false db with
  | None => (req, NextError (HTTP404Error "Recipe not found"))
  | Some recipe => (mkRequest (req_user req) (Some recipe), NextOk)
  end.

(** The handler at the route parameter as the router passes it:
    [findById] casts it to an ObjectId first, and rejects with a CastError
    that [.catch(next)] hands to [next] when it cannot. *)
Definition preloadRecipe_route (req : Request) (param : string) (db : Db)
    : Request * Next :=
  match castObjectId param with
  | None => (req, NextCastError param)
  | Some recipeId => preloadRecipe req recipeId db
  end.


(** ** Vocabulary of the properties *)

(** The three components of what an instance method returns. *)
Definition outcome {A} (o : result A * IRecipe * Db) : result A := o.1.1.
Definition receiver {A} (o : result A * IRecipe * Db) : IRecipe := o.1.2.
Definition store {A} (o : result A * IRecipe * Db) : Db := o.2.

(** The detail fields a list view must not carry. *)
Definition detail_fields : list string :=
  ["banners"; "ingredients"; "methods"; "servings"; "description";
   "category"; "tags"; "time"; "status"; "createdAt"].

Definition occurrences (x : ObjectId) (l : list ObjectId) : nat :=
  length (filter (fun y => y = x) l).

Definition rating_summary (a t : Q) : obj :=
  <["avg" := VNum a]> (<["total" := VNum t]> ∅).

(** A recipe input that is valid apart from its banners: a name and a
    category that are not blank, servings from 1 to 16, a time from 1 to
    200 when there is one, an owner, ingredients with a quantity and a
    text that are not blank, and at least one method. *)
Definition nonblank (s : option string) : bool :=
  match s with
  | Some x => negb (is_empty_string (trim x))
  | None => false
  end.

Definition in_range (lo hi q : Q) : bool := Qle_bool lo q && Qle_bool q hi.

Definition valid_fields (input : RecipeInput) : bool :=
  nonblank (i_name input)
  && nonblank (i_category input)
  && from_option (in_range 1 16) false (i_servings input)
  && from_option (in_range 1 200) true (i_time input)
  && bool_decide (is_Some (i_createdBy input))
  && forallb (fun x => nonblank (quantity x) && nonblank (ingredient x))
       (i_ingredients input)
  && negb (bool_decide (i_methods input = [])).

(** The properties a serialised recipe never carries, and the ones a
    thumbnail may carry. *)
Definition internal_fields : list string := ["_id"; "ratings"; "updatedAt"].

Definition json_keys : gset string :=
  {[ "id"; "image_url"; "name"; "description"; "status"; "category";
     "createdBy"; "servings"; "time"; "tags"; "banners"; "ingredients";
     "methods"; "rating"; "createdAt"; "score" ]}.


Definition user_flags : gset string := {[ "savedByUser"; "createdByUser" ]}.


(** ** Sample documents *)

Definition sample_image (n : string) : IImage :=
  mkImage ("img-" +:+ n) ("pub-" +:+ n) ("https://cdn.example/" +:+ n +:+ ".png")
    "recipe".

Definition sample_images : list IImage :=
  sample_image <$> ["1"; "2"; "3"; "4"; "5"].

Definition sample_recipe (id : ObjectId) (st : option bool)
    (cat : option string) (bs : list ObjectId) : StoredRecipe :=
  mkRecipe id (Some "Pho") (Some "Noodle soup") st cat (Some "user-1")
    (Some 2%Q) (Some 30%Q) ["hot"] bs
    [mkIngredient (Some "200g") (Some "rice noodles")] ["Boil the broth"]
    RecipeFields.rating_default [] (Some "t0") (Some "t0") None.

Definition soup : StoredRecipe :=
  sample_recipe "r1" (Some true) (Some "soup") ["img-1"].

Definition cake : StoredRecipe :=
  sample_recipe "r2" (Some false) (Some "cake") ["img-2"].

Definition sample_db : Db :=
  mkDb sample_images [soup; cake]
    [mkRating "k1" "r1" 3; mkRating "k2" "r2" 1; mkRating "k3" "r1" 5].

Definition sample_input (bs : list ObjectId) : RecipeInput :=
  mkInput (Some " Pho ") (Some "Soup") None (Some 2%Q) None (Some "user-1") bs
    [mkIngredient (Some "200g") (Some "rice noodles")] ["Boil the broth"]
    None [] ["Hot"].

Definition five_banners : list ObjectId :=
  ["img-1"; "img-2"; "img-3"; "img-4"; "img-5"].

(** The soup as a query hands it out, a recipe nobody rated, and the
    document a creation builds. *)
Definition soup_loaded : IRecipe := hydrate true sample_db soup.

Definition unrated : IRecipe :=
  hydrate true sample_db (sample_recipe "r3" (Some true) (Some "salad") ["img-3"]).

Definition created : IRecipe :=
  set_timestamps "t1" (new_document "r9" (sample_input ["img-1"; "img-2"])).

(** The data store after the creation, the edit object of the soup, and a
    rated recipe that lost its name. *)
Definition sample_db_created : Db :=
  set_recipes (upsert (depopulate created) (recipes sample_db)) sample_db.

Definition soup_edit_object : obj :=
  delete "createdAt"
    (delete "createdBy"
       (<["banners" := VArr [VObj (toEditObject (sample_image "1"))]]>
          (toObject soup_loaded))).

Definition nameless_soup : IRecipe :=
  {| _id := "r1"; name := None; description := None; status := Some true;
     category := Some "soup"; createdBy := Some "user-1";
     servings := Some 2%Q; time := None; tags := [];
     banners := [BImg (sample_image "1")]; ingredients := [];
     methods := ["Boil the broth"]; rating := RecipeFields.rating_default;
     ratings := []; createdAt := Some "t0"; updatedAt := Some "t0";
     score := None |}.

Definition sample_request : Request := mkRequest None None.

(** A driver that takes every string of 12 characters, and the id of
    a rating, as it reads back and written in upper case. *)
Definition sample_driver : Driver := mkDriver (fun _ => true).

Definition rating_ref : ObjectId := "5d96d8ccca60c720bcf45383".

Definition rating_ref_upper : string := "5D96D8CCCA60C720BCF45383".


(** * Properties *)

(** ** Strings *)

(** NO-BREAK SPACE is white space to [trim], like the space and the
    tabulator around it. *)
Lemma trim_no_break_space :
  trim (String (ascii_of_nat 160) (String (ascii_of_nat 9) " Pho "
        +:+ String (ascii_of_nat 160) EmptyString))
  = "Pho"
  ∧ trim (String (ascii_of_nat 160) EmptyString) = "".
Proof. split; vm_compute; reflexivity. Qed.

(** The letters beyond Z have their lower case too: CHE with a grave
    accent on the E (U+00C8) becomes che with U+00E8; the multiplication
    sign (U+00D7) and the sharp s (U+00DF) stay. *)
Lemma toLowerCase_beyond_Z :
  toLowerCase ("CH" +:+ String (ascii_of_nat 200) EmptyString)
  = "ch" +:+ String (ascii_of_nat 232) EmptyString
  ∧ toLowerCase (String (ascii_of_nat 215) (String (ascii_of_nat 223) EmptyString))
    = String (ascii_of_nat 215) (String (ascii_of_nat 223) EmptyString).
Proof. split; vm_compute; reflexivity. Qed.

(** ** Objects *)

Lemma lookup_set_opt_ne (k j : string) (v : option value) (o : obj) :
  k ≠ j -> set_opt k v o !! j = o !! j.
Proof. intros Hne. destruct v; simpl; [by rewrite lookup_insert_ne | done]. Qed.

Lemma lookup_set_opt_eq (k : string) (v : option value) (o : obj) :
  o !! k = None -> set_opt k v o !! k = v.
Proof. intros Hk. destruct v; simpl; [apply lookup_insert_eq | done]. Qed.

Lemma lookup_applyVirtuals_ne (this : IRecipe) (o : obj) (k : string) :
  k ≠ "id" -> k ≠ "image_url" -> applyVirtuals this o !! k = o !! k.
Proof.
  intros Hid Hurl. unfold applyVirtuals.
  rewrite lookup_insert_ne by done.
  destruct (image_url this); try done; by rewrite lookup_insert_ne.
Qed.

(** A property read after a chain of [delete]s: gone if one of them names
    it, otherwise what the object below holds. *)
Ltac deleted :=
  repeat first
    [ apply lookup_delete_eq
    | rewrite lookup_delete_ne by done ].

Ltac kept :=
  repeat first
    [ rewrite lookup_delete_ne by done
    | rewrite lookup_insert_ne by done
    | rewrite lookup_set_opt_ne by done ].

(** ** Grouping *)

Section Grouping.
Context {K A : Type} `{EqDecision K} (key : A -> K).

Lemma group_by_keys (l : list A) :
  (group_by key l).*1 = remove_dups (key <$> l).
Proof.
  unfold group_by. rewrite <- list_fmap_compose.
  induction (remove_dups (key <$> l)) as [|k ks IH]; simpl; [done | by f_equal].
Qed.

Lemma group_by_keys_NoDup (l : list A) : NoDup (group_by key l).*1.
Proof. rewrite group_by_keys. apply NoDup_remove_dups. Qed.

Lemma elem_of_group_by (l : list A) (k : K) (members : list A) :
  (k, members) ∈ group_by key l <->
  k ∈ key <$> l ∧ members = filter (fun a => key a = k) l.
Proof.
  unfold group_by. rewrite list_elem_of_fmap. split.
  - intros (k' & Heq & Hin). inversion Heq; subst.
    by rewrite elem_of_remove_dups in Hin.
  - intros [Hin ->]. exists k. by rewrite elem_of_remove_dups.
Qed.

Lemma remove_dups_const (k : K) (ks : list K) :
  Forall (fun x => x = k) ks -> ks ≠ [] -> remove_dups ks = [k].
Proof.
  induction ks as [|x ks IH]; [done|].
  intros Hall _. inversion Hall as [|? ? -> Hall']; subst.
  cbn [remove_dups]. destruct ks as [|y ks].
  - done.
  - rewrite IH by done. case_match; [done|].
    match goal with H : _ ∉ _ |- _ => destruct H end.
    inversion Hall'; subst. apply list_elem_of_here.
Qed.

Lemma filter_Forall_id (P : A -> Prop) `{!forall a, Decision (P a)} (l : list A) :
  Forall P l -> filter P l = l.
Proof.
  induction 1 as [|a l Ha _ IH]; [done|].
  by rewrite filter_cons_True, IH.
Qed.

(** When every document carries the same key there is one group. *)
Lemma group_by_const (k : K) (l : list A) :
  Forall (fun a => key a = k) l -> l ≠ [] -> group_by key l = [(k, l)].
Proof.
  intros Hall Hne. unfold group_by.
  rewrite (remove_dups_const k).
  - simpl. by rewrite filter_Forall_id.
  - by apply Forall_fmap.
  - by destruct l.
Qed.

End Grouping.

(** ** C4: the list views *)

(** C4. For every recipe and every user, present or not, the thumbnail
    view and the search-result view have none of the properties banners,
    ingredients, methods, servings, description, category, tags, time,
    status and createdAt, and the search-result view has no score. *)
Theorem list_views_strip_detail_fields (this : IRecipe) (user : option IUser) :
  Forall (fun k => toThumbnailFor this user !! k = None
                   ∧ toSearchResultFor this user !! k = None) detail_fields
  ∧ toSearchResultFor this user !! "score" = None.
Proof.
  unfold detail_fields, toThumbnailFor, toSearchResultFor.
  split; [repeat apply Forall_cons_2; try apply Forall_nil; split|];
    simpl; deleted.
Qed.


(** ** C5: rating references *)

Lemma occurrences_absent (x : ObjectId) (l : list ObjectId) :
  x ∉ l -> occurrences x l = 0%nat.
Proof.
  unfold occurrences. induction l as [|y l IH]; [done|].
  rewrite not_elem_of_cons. intros [Hne Hnin].
  rewrite filter_cons_False by congruence. by apply IH.
Qed.

Lemma occurrences_present (x : ObjectId) (l : list ObjectId) :
  x ∈ l -> (1 <= occurrences x l)%nat.
Proof.
  unfold occurrences. induction l as [|y l IH]; [by intros ?%elem_of_nil|].
  destruct (decide (y = x)) as [->|Hne].
  - intros _. rewrite filter_cons_True by done. simpl. lia.
  - rewrite elem_of_cons. intros [->|Hin]; [done|].
    rewrite filter_cons_False by done. by apply IH.
Qed.

(** [addRating] never touches the data store, whatever the id. *)
Lemma addRating_store (ratingId : string) (this : IRecipe) (db : Db) :
  store (addRating ratingId this db) = db.
Proof.
  unfold addRating, store. case_bool_decide; [done|].
  by destruct (castObjectId ratingId).
Qed.

(** [addRating] at an id in canonical form. For every recipe and every
    rating id that reads back as it is given (the id is its own cast to
    an ObjectId: 24 hexadecimal digits in lower case), [addRating] is an
    idempotent set insert that does not persist: a second call with the
    same id changes nothing more than the first (same outcome, same
    receiver, same data store), the id is among the references
    afterwards, the references the recipe had are kept, in order, in
    front of it, the calls add one occurrence of the id when it was absent
    and none when it was present, and the data store is the one the call
    was given. *)
Theorem addRating_idempotent (ratingId : string) (this : IRecipe) (db : Db) :
  castObjectId ratingId = Some ratingId ->
  let once := addRating ratingId this db in
  let twice := addRating ratingId (receiver once) (store once) in
  twice = once
  ∧ ratingId ∈ ratings (receiver once)
  ∧ ratings this `prefix_of` ratings (receiver once)
  ∧ occurrences ratingId (ratings (receiver twice))
    = Nat.max 1 (occurrences ratingId (ratings this))
  ∧ store once = db
  ∧ store twice = db.
Proof.
  intros Hcast. unfold addRating, receiver, store.
  destruct (decide (ratingId ∈ ratings this)) as [Hin|Hnin].
  - rewrite !(bool_decide_eq_true_2 _ Hin). cbn [fst snd].
    repeat split; try done.
    pose proof (occurrences_present _ _ Hin). lia.
  - rewrite (bool_decide_eq_false_2 _ Hnin), Hcast. cbn [fst snd].
    change (ratings (set_ratings (ratings this ++ [ratingId]) this))
      with (ratings this ++ [ratingId])%list.
    assert (ratingId ∈ (ratings this ++ [ratingId])%list) as Hin'
      by (apply elem_of_app; right; apply list_elem_of_here).
    rewrite (bool_decide_eq_true_2 _ Hin'). cbn [fst snd].
    change (ratings (set_ratings (ratings this ++ [ratingId]) this))
      with (ratings this ++ [ratingId])%list.
    repeat split; try done.
    + by exists [ratingId].
    + rewrite (occurrences_absent _ _ Hnin).
      unfold occurrences. rewrite filter_app, length_app.
      fold (occurrences ratingId (ratings this)).
      rewrite (occurrences_absent _ _ Hnin).
      by rewrite filter_cons_True.
Qed.

(** C5, at an id written in upper case. [addRating] guards its [push]
    with [includes], but [includes] looks for the id as it is given
    while the list holds the ids as they read back, in lower case: at the
    id 5D96D8CCCA60C720BCF45383 the first call appends
    5d96d8ccca60c720bcf45383 and the second call, which does not find
    what it was given, appends it again. The recipe after two calls is
    not the recipe after one, and holds the id twice. The references the
    recipe had are kept and the data store is not touched. *)
Theorem addRating_upper_case_twice :
  let once := addRating rating_ref_upper soup_loaded sample_db in
  let twice := addRating rating_ref_upper (receiver once) (store once) in
  rating_ref_upper = "5D96D8CCCA60C720BCF45383"
  ∧ rating_ref = "5d96d8ccca60c720bcf45383"
  ∧ (rating_ref ∉ ratings soup_loaded)
  ∧ once
    = (Ok (set_ratings (ratings soup_loaded ++ [rating_ref]) soup_loaded),
       set_ratings (ratings soup_loaded ++ [rating_ref]) soup_loaded,
       sample_db)
  ∧ twice
    = (Ok (set_ratings (ratings soup_loaded ++ [rating_ref; rating_ref])
             soup_loaded),
       set_ratings (ratings soup_loaded ++ [rating_ref; rating_ref])
         soup_loaded,
       sample_db)
  ∧ twice ≠ once
  ∧ occurrences rating_ref (ratings (receiver once)) = 1%nat
  ∧ occurrences rating_ref (ratings (receiver twice)) = 2%nat.
Proof.
  cbv zeta.
  set (once := addRating rating_ref_upper soup_loaded sample_db).
  set (twice := addRating rating_ref_upper (receiver once) (store once)).
  assert (once
          = (Ok (set_ratings (ratings soup_loaded ++ [rating_ref]) soup_loaded),
             set_ratings (ratings soup_loaded ++ [rating_ref]) soup_loaded,
             sample_db)) as H1
    by (vm_compute; reflexivity).
  assert (twice
          = (Ok (set_ratings (ratings soup_loaded ++ [rating_ref; rating_ref])
                   soup_loaded),
             set_ratings (ratings soup_loaded ++ [rating_ref; rating_ref])
               soup_loaded,
             sample_db)) as H2
    by (vm_compute; reflexivity).
  split; [reflexivity|]. split; [reflexivity|].
  split; [apply (bool_decide_unpack _); vm_compute; exact I|].
  split; [exact H1|]. split; [exact H2|].
  rewrite H1, H2. split; [|split; vm_compute; reflexivity].
  intros Heq. apply (f_equal (fun x => length (ratings x.1.2))) in Heq.
  vm_compute in Heq. discriminate Heq.
Qed.

(** ** C7: the limit of [getCategories] *)

Lemma getCategories_ids (limit : option nat) (db : Db) :
  getCategories limit db = getCategories None db
  ∧ (fun e : obj => e !! "_id") <$> getCategories limit db
    = (fun k => Some (category_value k))
        <$> remove_dups (category <$> filter matches_public (recipes db)).
Proof.
  split; [done|].
  unfold getCategories.
  rewrite <- (group_by_keys category), <- !list_fmap_compose.
  apply list_fmap_ext. intros _ [k members] _. simpl.
  unfold category_group. apply lookup_insert_eq.
Qed.

(** C7. Whatever the limit, absent or not, [getCategories] returns the
    same entries, and they are complete: there is one entry, in order, for
    each distinct category of the public recipes, none cut off. *)
Theorem getCategories_ignores_limit (limit limit' : option nat) (db : Db) :
  getCategories limit db = getCategories limit' db
  ∧ (fun e : obj => e !! "_id") <$> getCategories limit db
    = (fun k => Some (category_value k))
        <$> remove_dups (category <$> filter matches_public (recipes db)).
Proof.
  split; [done|]. apply getCategories_ids.
Qed.

(** ** C8: the edit view *)

Lemma mapM_banner_toEditObject (imgs : list IImage) :
  mapM banner_toEditObject (BImg <$> imgs) = Some (toEditObject <$> imgs).
Proof.
  apply mapM_Some. induction imgs as [|x imgs IH]; simpl; by constructor.
Qed.

(** C8. For every recipe whose banners are its images, [toEditObj]
    returns an object that has neither createdBy nor createdAt and whose
    banners are the {id, url} pairs of those images, in order. *)
Theorem toEditObj_expands_banners (this : IRecipe) (imgs : list IImage) :
  banners this = BImg <$> imgs ->
  exists o : obj,
    toEditObj this = Ok o
    ∧ o !! "createdBy" = None
    ∧ o !! "createdAt" = None
    ∧ o !! "banners"
      = Some (VArr ((fun x => VObj (<["id" := VStr (img_id x)]>
                                   (<["url" := VStr (url x)]> ∅))) <$> imgs)).
Proof.
  intros Hb. unfold toEditObj. rewrite Hb, mapM_banner_toEditObject.
  eexists. split; [reflexivity|]. repeat split; deleted.
  rewrite lookup_insert_eq, <- list_fmap_compose. done.
Qed.

(** A banner that was not populated makes [toEditObj] fail. *)
Lemma toEditObj_raw_reference (this : IRecipe) (id : ObjectId) :
  BRef id ∈ banners this -> exists msg, toEditObj this = Throw (TypeError msg).
Proof.
  intros Hin. unfold toEditObj.
  assert (mapM banner_toEditObject (banners this) = None) as ->; [|by eexists].
  apply mapM_None, Exists_exists. by exists (BRef id).
Qed.

(** ** C3, C9: the rating roll-up *)

Lemma filter_Forall_not {A} (P : A -> Prop) `{!forall a, Decision (P a)} (l : list A) :
  Forall (fun a => ¬ P a) l -> filter P l = [].
Proof.
  induction 1 as [|a l Ha _ IH]; [done|].
  by rewrite filter_cons_False.
Qed.

Lemma aggregate_ratings_matched (id : ObjectId) (db : Db) :
  filter (fun x => recipeId x = id) (ratingDocs db) ≠ [] ->
  aggregate_ratings id db
  = [rating_group id (filter (fun x => recipeId x = id) (ratingDocs db))].
Proof.
  intros Hne. unfold aggregate_ratings.
  rewrite (group_by_const recipeId id); [done| |done].
  apply Forall_forall. by intros x [? _]%list_elem_of_filter.
Qed.

Lemma delete_id_rating_group (k : ObjectId) (members : list IRating) :
  delete "_id" (rating_group k members)
  = <["avg" := avg (rateValue <$> members)]>
      (<["total" := VInt (length members)]> ∅).
Proof. unfold rating_group. apply delete_insert_id. kept. apply lookup_empty. Qed.


Lemma elem_of_upsert (d : StoredRecipe) (l : list StoredRecipe) :
  d ∈ upsert d l.
Proof.
  induction l as [|x l IH]; simpl; [apply list_elem_of_here|].
  case_decide; [apply list_elem_of_here | by apply list_elem_of_further].
Qed.


(** C9. For every recipe with no matching rating record, [updateRating]
    fails with a TypeError on the first element of the empty aggregation
    result, before it assigns a rating summary and before it saves: the
    receiver and the data store are the ones the call was given. *)
Theorem updateRating_without_ratings (now : string) (this : IRecipe) (db : Db) :
  Forall (fun x => recipeId x ≠ _id this) (ratingDocs db) ->
  aggregate_ratings (_id this) db = []
  ∧ exists msg, updateRating now this db = (Throw (TypeError msg), this, db).
Proof.
  intros Hnone.
  assert (aggregate_ratings (_id this) db = []) as Hagg.
  { unfold aggregate_ratings. by rewrite filter_Forall_not. }
  split; [done|]. unfold updateRating. rewrite Hagg. by eexists.
Qed.

(** ** C6, C10: creation *)

Lemma toLowerCase_empty (s : string) :
  is_empty_string (toLowerCase s) = is_empty_string s.
Proof. by destruct s. Qed.

Lemma validate_string_nonblank (path : string) (o : PathOptions) (v : option string) :
  opt_trim o = true -> opt_minlength o = None -> opt_maxlength o = None ->
  nonblank v = true ->
  validate_string path o (apply_string_setters o <$> v) = [].
Proof.
  intros Htrim Hmin Hmax Hv. destruct v as [s|]; [|done]. simpl in *.
  unfold apply_string_setters. rewrite Htrim, Hmin, Hmax.
  assert (is_empty_string (if opt_lowercase o then toLowerCase (trim s)
                           else trim s) = false) as ->.
  { destruct (opt_lowercase o); rewrite ?toLowerCase_empty;
      by apply negb_true_iff. }
  by rewrite andb_false_r.
Qed.

Lemma validate_string_optional (path : string) (o : PathOptions) (v : option string) :
  opt_required o = false -> opt_minlength o = None -> opt_maxlength o = None ->
  validate_string path o v = [].
Proof. intros Hreq Hmin Hmax. destruct v; simpl; by rewrite Hreq, ?Hmin, ?Hmax. Qed.

Lemma validate_number_in_range (path : string) (o : PathOptions) (lo hi q : Q) :
  opt_min o = Some lo -> opt_max o = Some hi -> in_range lo hi q = true ->
  validate_number path o (Some q) = [].
Proof.
  unfold in_range. intros Hmin Hmax [Hlo Hhi]%andb_true_iff. simpl.
  by rewrite Hmin, Hmax, Hlo, Hhi.
Qed.

Lemma validate_ingredients_nonblank (i : nat) (l : list Ingredient) :
  forallb (fun x => nonblank (quantity x) && nonblank (ingredient x)) l = true ->
  validate_ingredients i (cast_ingredient <$> l) = [].
Proof.
  revert i. induction l as [|x l IH]; intros i; [done|].
  cbn [forallb]. intros [[Hq Hi]%andb_true_iff Hl]%andb_true_iff.
  cbn [fmap list_fmap validate_ingredients cast_ingredient quantity ingredient].
  rewrite !validate_string_nonblank by done.
  by apply IH.
Qed.

(** The banners of a document pass validation as soon as there is one
    and each resolves to a stored image; how many there are is not looked
    at. *)
Lemma validate_banners_existing (bs : list ObjectId) (db : Db) :
  bs ≠ [] -> checkImagesExist bs db = true -> validate_banners bs db = [].
Proof.
  intros Hne Hex. unfold validate_banners, validate_array.
  destruct bs; [done|]. by rewrite Hex.
Qed.

Lemma banner_ref_BRef (bs : list ObjectId) : banner_ref <$> (BRef <$> bs) = bs.
Proof. rewrite <- list_fmap_compose. apply list_fmap_id. Qed.

Lemma validate_new_document (newId : ObjectId) (input : RecipeInput) (db : Db) :
  valid_fields input = true ->
  i_banners input ≠ [] ->
  checkImagesExist (i_banners input) db = true ->
  validate (new_document newId input) db = [].
Proof.
  unfold valid_fields.
  intros [[[[[[Hname Hcat]%andb_true_iff Hserv]%andb_true_iff
    Htime]%andb_true_iff Hown]%andb_true_iff Hing]%andb_true_iff
    Hmeth]%andb_true_iff Hne Hex.
  unfold validate, new_document.
  cbn [name category description servings time createdBy banners ingredients
       methods].
  rewrite !validate_string_nonblank by done.
  rewrite validate_string_optional by done.
  destruct (i_servings input) as [s|]; [|done].
  rewrite (validate_number_in_range _ _ 1 16) by done.
  assert (validate_number "time" RecipeFields.time (i_time input) = []) as ->.
  { destruct (i_time input) as [t|]; [|done].
    by apply (validate_number_in_range _ _ 1 200). }
  apply bool_decide_eq_true in Hown. destruct Hown as [owner ->].
  rewrite banner_ref_BRef, validate_banners_existing by done.
  rewrite validate_ingredients_nonblank by done.
  apply negb_true_iff, bool_decide_eq_false in Hmeth.
  by destruct (i_methods input).
Qed.

Lemma find_upsert (d : StoredRecipe) (l : list StoredRecipe) :
  List.find (fun x => bool_decide (_id x = _id d)) (upsert d l) = Some d.
Proof.
  induction l as [|x l IH]; simpl.
  - by rewrite bool_decide_eq_true_2.
  - case_decide as Hid; simpl.
    + by rewrite bool_decide_eq_true_2.
    + by rewrite bool_decide_eq_false_2.
Qed.

Lemma findById_upsert (d : StoredRecipe) (autopopulate : bool) (db : Db) :
  let db' := set_recipes (upsert d (recipes db)) db in
  findById (_id d) autopopulate db' = Some (hydrate autopopulate db' d).
Proof. unfold findById, set_recipes. cbn [recipes]. by rewrite find_upsert. Qed.




Lemma rating_default_lookup :
  RecipeFields.rating_default !! "avg" = None
  ∧ RecipeFields.rating_default !! "avgRating" = Some (VNum 0)
  ∧ RecipeFields.rating_default !! "total" = Some (VNum 0).
Proof.
  unfold RecipeFields.rating_default. repeat split; kept;
    first [apply lookup_empty | apply lookup_insert_eq].
Qed.

(** A successful [updateRating] leaves a summary with an [avg]. *)
Lemma updateRating_Ok_avg (now : string) (this r1 this1 : IRecipe) (db db1 : Db) :
  updateRating now this db = (Ok r1, this1, db1) ->
  is_Some (rating r1 !! "avg").
Proof.
  unfold updateRating, aggregate_ratings.
  destruct (group_by recipeId _) as [|[k members] gs];
    cbn [fmap list_fmap fst snd]; [by intros [=]|].
  rewrite delete_id_rating_group.
  unfold save. destruct (validate _ db); [|done].
  intros [= <- _ _]. cbn [rating set_timestamps set_rating].
  rewrite lookup_insert_eq. by eexists.
Qed.

(** C10. The default of the rating summary is the object
    {avgRating: 0, total: 0}: a recipe created without a rating summary of
    its own carries that object, in memory and in the data store, so its
    summary has an [avgRating] and a [total] of 0 and no [avg]; the first
    [updateRating] that succeeds on it gives the summary an [avg]. *)
Theorem created_rating_has_no_avg (newId : ObjectId) (now : string)
    (input : RecipeInput) (db db' : Db) (r : IRecipe) :
  i_rating input = None ->
  create newId now input db = (Ok r, db') ->
  rating r = <["avgRating" := VNum 0]> (<["total" := VNum 0]> ∅)
  ∧ rating r !! "avg" = None
  ∧ rating r !! "avgRating" = Some (VNum 0)
  ∧ rating r !! "total" = Some (VNum 0)
  ∧ (exists d, d ∈ recipes db' ∧ _id d = newId ∧ rating d = rating r)
  ∧ (forall now' r1 this1 db1,
       updateRating now' r db' = (Ok r1, this1, db1) ->
       is_Some (rating r1 !! "avg")).
Proof.
  intros Hnone. unfold create, save.
  destruct (validate _ db); [|done]. intros [= <- <-].
  cbn [rating set_timestamps new_document]. rewrite Hnone. cbn [default].
  destruct rating_default_lookup as (Havg & Havg' & Htotal).
  split; [done|]. do 3 (split; [done|]). split.
  - eexists. split; [apply elem_of_upsert|]. split; [done|].
    cbn [depopulate rating set_banners set_timestamps new_document].
    by rewrite Hnone.
  - intros now' r1 this1 db1. apply updateRating_Ok_avg.
Qed.

(** ** C2: the number of banners *)

(** Validation of the banners of a new document: the empty list is
    rejected only where [required] rejects empty arrays, a list of
    references that do not all resolve is rejected by the existence check,
    and nothing else is. *)
Lemma validate_banners_spec (bs : list ObjectId) (db : Db) :
  validate_banners bs db
  = match bs with
    | [] => if array_required_nonempty then [("banners", KRequired)] else []
    | _ => if checkImagesExist bs db then []
           else [("banners", KUserDefined "Image not exists")]
    end.
Proof.
  unfold validate_banners, validate_array. destruct bs; [|done].
  cbn [RecipeFields.banners opt_required andb].
  by destruct array_required_nonempty.
Qed.

(** C2, at five banners. A recipe input with five banner references that
    all resolve to stored images, and otherwise valid, is not rejected:
    [create] succeeds and the data store holds the recipe with its five
    banners. The declared [maxlength: 4] is an option of String paths and
    no validator of the Array path reads it. *)
Theorem create_accepts_five_banners :
  length (i_banners (sample_input five_banners)) = 5%nat
  ∧ RecipeFields.banners.(opt_maxlength) = Some 4%nat
  ∧ exists (r : IRecipe) (db' : Db),
      create "r9" "t1" (sample_input five_banners) sample_db = (Ok r, db')
      ∧ banner_ref <$> banners r = five_banners
      ∧ (exists d, d ∈ recipes db' ∧ _id d = "r9" ∧ banners d = five_banners).
Proof.
  split; [done|]. split; [done|].
  unfold create, save.
  rewrite validate_new_document by done.
  eexists _, _. split; [reflexivity|]. split; [done|].
  eexists. split; [apply elem_of_upsert|]. done.
Qed.

(** ** C1: the category entries *)

Lemma category_group_lookup (k : option string) (members : list StoredRecipe) :
  category_group k members !! "_id" = Some (category_value k)
  ∧ category_group k members !! "total" = Some (VInt (length members))
  ∧ category_group k members !! "image_url"
    = Some (ref_value (last members ≫= first_banner))
  ∧ category_group k members !! "name" = None
  ∧ dom (category_group k members) = {["_id"; "total"; "image_url"]}.
Proof.
  unfold category_group. split; [|split; [|split; [|split]]]; kept;
    try first [apply lookup_insert_eq | apply lookup_empty].
  rewrite !dom_insert_L, dom_empty_L. set_solver.
Qed.

(** What [getCategories] returns: the entries are the groups, by
    category, of the recipes that are public and have a category. *)
Lemma elem_of_getCategories (limit : option nat) (db : Db) (e : obj) :
  e ∈ getCategories limit db <->
  exists c,
    (exists r, r ∈ recipes db ∧ status r = Some true ∧ category r = Some c)
    ∧ e = category_group (Some c)
            (filter (fun r => category r = Some c)
               (filter matches_public (recipes db))).
Proof.
  unfold getCategories. rewrite list_elem_of_fmap. split.
  - intros ([k members] & -> & Hg). apply elem_of_group_by in Hg as [Hk ->].
    apply list_elem_of_fmap in Hk as (r & -> & Hr).
    apply list_elem_of_filter in Hr as [[Hst Hcat] Hr].
    destruct (category r) as [c|] eqn:Hc; [|done].
    exists c. split; [by exists r|done].
  - intros (c & (r & Hr & Hst & Hc) & ->).
    exists (Some c, filter (fun r => category r = Some c)
                      (filter matches_public (recipes db))).
    split; [done|]. apply elem_of_group_by. split; [|done].
    apply list_elem_of_fmap. exists r. split; [done|].
    apply list_elem_of_filter. split; [|done].
    split; [done|]. by rewrite Hc.
Qed.

#[local] Instance category_value_inj : Inj (=) (=) category_value.
Proof. intros [c1|] [c2|]; simpl; congruence. Qed.

(** One entry per distinct category. *)
Lemma getCategories_NoDup (limit : option nat) (db : Db) :
  NoDup ((fun e : obj => e !! "_id") <$> getCategories limit db).
Proof.
  rewrite (proj2 (getCategories_ids limit db)).
  rewrite (list_fmap_compose category_value Some).
  apply NoDup_fmap_2; [apply _|].
  apply NoDup_fmap_2; [apply _|]. apply NoDup_remove_dups.
Qed.

(** No entry has a [name]: the category is under [_id]. *)
Lemma getCategories_entry_shape (limit : option nat) (db : Db) (e : obj) :
  e ∈ getCategories limit db ->
  e !! "name" = None
  ∧ (exists c, e !! "_id" = Some (VStr c))
  ∧ dom e = {["_id"; "total"; "image_url"]}.
Proof.
  intros (c & _ & ->)%elem_of_getCategories.
  destruct (category_group_lookup (Some c)
    (filter (fun r => category r = Some c)
       (filter matches_public (recipes db)))) as (Hid & _ & _ & Hname & Hdom).
  split; [done|]. split; [by exists c|done].
Qed.

(** C1, on a public soup and a private cake. [getCategories] returns one
    entry, for the category of the public recipe, with the count of public
    recipes of the category and the first banner reference of a member;
    the entry carries the category under [_id] and has no [name]. *)
Theorem getCategories_soup_and_cake :
  getCategories None sample_db
  = [ <["_id" := VStr "soup"]>
      (<["total" := VNum 1]>
      (<["image_url" := VId "img-1"]> ∅)) ]
  ∧ Forall (fun e : obj => e !! "name" = None) (getCategories None sample_db).
Proof.
  assert (getCategories None sample_db
          = [category_group (Some "soup") [soup]]) as ->
    by (vm_compute; reflexivity).
  split; [done|].
  constructor; [|constructor].
  destruct (category_group_lookup (Some "soup") [soup]) as (_ & _ & _ & H & _).
  exact H.
Qed.

(** * Further properties *)

(** ** The serialised views *)

Ltac through :=
  repeat first
    [ apply lookup_delete_eq
    | rewrite lookup_delete_ne by done
    | rewrite lookup_insert_ne by done
    | rewrite lookup_set_opt_ne by done ].

Lemma dom_set_opt (k : string) (v : option value) (o : obj) :
  dom (set_opt k v o) ⊆ {[k]} ∪ dom o.
Proof. destruct v; simpl; [rewrite dom_insert_L|]; set_solver. Qed.

Lemma dom_document_paths (this : IRecipe) :
  dom (document_paths this) ⊆ {["_id"; "ratings"; "updatedAt"]} ∪ json_keys.
Proof.
  unfold document_paths, json_keys.
  repeat first
    [ rewrite dom_insert_L
    | rewrite dom_empty_L
    | etrans; [apply dom_set_opt|]
    | apply union_least; [set_solver|] ].
  set_solver.
Qed.

Lemma dom_applyVirtuals (this : IRecipe) (o : obj) :
  dom (applyVirtuals this o) ⊆ {["id"; "image_url"]} ∪ dom o.
Proof.
  unfold applyVirtuals. rewrite dom_insert_L.
  destruct (image_url this); rewrite ?dom_insert_L; set_solver.
Qed.

Lemma dom_toJSON (this : IRecipe) : dom (toJSON this) ⊆ json_keys.
Proof.
  unfold toJSON, transform. rewrite !dom_delete_L. intros k Hk.
  apply elem_of_difference in Hk as [Hk Hu].
  apply elem_of_difference in Hk as [Hk Hr].
  apply elem_of_difference in Hk as [Hk Hi].
  apply dom_applyVirtuals, elem_of_union in Hk as [Hk|Hk].
  - unfold json_keys. set_solver.
  - apply dom_document_paths, elem_of_union in Hk as [Hk|Hk]; [|done].
    set_solver.
Qed.

Lemma toJSON_no_flags (this : IRecipe) :
  toJSON this !! "savedByUser" = None ∧ toJSON this !! "createdByUser" = None.
Proof.
  pose proof (dom_toJSON this) as Hd. unfold json_keys in Hd.
  split; apply not_elem_of_dom; set_solver.
Qed.


(** X1. No view of a recipe carries the database key [_id], the rating
    references or [updatedAt]: neither the JSON view, personalised or not,
    nor the thumbnail, the search result or the edit object; the JSON view
    carries the key as [id] instead. *)
Theorem views_hide_internal_fields (this : IRecipe) (user : option IUser) :
  Forall (fun k =>
            view_for this user !! k = None
            ∧ toThumbnailFor this user !! k = None
            ∧ toSearchResultFor this user !! k = None
            ∧ match toEditObj this with
              | Ok o => o !! k = None
              | Throw _ => True
              end) internal_fields
  ∧ view_for this user !! "id" = Some (VStr (_id this)).
Proof.
  assert (forall k, k ∈ internal_fields -> toJSON this !! k = None) as HJ.
  { intros k Hk. unfold toJSON, transform, internal_fields in *.
    repeat (apply elem_of_cons in Hk as [->|Hk]); [through..|].
    by apply elem_of_nil in Hk. }
  assert (forall k, k ∈ internal_fields -> view_for this user !! k = None) as HV.
  { intros k Hk. specialize (HJ k Hk). unfold view_for, toJSONFor.
    destruct user; [|done]. unfold internal_fields in Hk.
    repeat (apply elem_of_cons in Hk as [->|Hk]);
      [by rewrite !lookup_insert_ne by done..|].
    by apply elem_of_nil in Hk. }
  split.
  - apply Forall_forall. intros k Hk. specialize (HV k Hk).
    assert (k ≠ "banners") as Hb.
    { intros ->. unfold internal_fields in Hk. set_solver. }
    repeat split.
    + done.
    + unfold toThumbnailFor. cbv zeta. rewrite !lookup_delete.
      repeat case_decide; done.
    + unfold toSearchResultFor. cbv zeta. rewrite !lookup_delete.
      repeat case_decide; done.
    + unfold toEditObj. cbv zeta. destruct (mapM _ _); [|done].
      rewrite !lookup_delete. repeat case_decide; try done.
      rewrite lookup_insert_ne by done. by apply HJ.
  - unfold view_for, toJSONFor, toJSON, transform, applyVirtuals.
    destruct user; through; apply lookup_insert_eq.
Qed.

(** X2. The personalised JSON view is the JSON view with two properties
    more: [savedByUser], the answer of the user's saved-list check, and
    [createdByUser], whether the user is the owner. The JSON view has
    neither, so nothing of it is overwritten: taking the two away gives
    the JSON view back. *)
Theorem toJSONFor_adds_two_flags (this : IRecipe) (user : IUser) :
  delete "savedByUser" (delete "createdByUser" (toJSONFor this user)) = toJSON this
  ∧ toJSONFor this user !! "savedByUser" = Some (VBool (didSaveRecipe user this))
  ∧ toJSONFor this user !! "createdByUser"
    = Some (VBool (bool_decide (createdBy this = Some (user_id user))))
  ∧ dom (toJSONFor this user) = dom (toJSON this) ∪ user_flags
  ∧ dom (toJSON this) ## user_flags.
Proof.
  destruct (toJSON_no_flags this) as [Hs Hc].
  unfold toJSONFor. split; [|split; [|split; [|split]]].
  - rewrite delete_insert_eq, delete_insert_ne by done.
    rewrite (delete_id _ _ Hc). by apply delete_insert_id.
  - rewrite lookup_insert_ne by done. apply lookup_insert_eq.
  - rewrite lookup_insert_eq. do 2 f_equal. unfold isCreatedBy.
    destruct (createdBy this) as [owner|]; [|done].
    apply bool_decide_ext. split; [by intros ->|by intros [= ->]].
  - rewrite !dom_insert_L. unfold user_flags. set_solver.
  - pose proof (dom_toJSON this) as Hd. unfold json_keys, user_flags in *.
    set_solver.
Qed.

Lemma toSearchResultFor_delete_score (this : IRecipe) (user : option IUser) :
  toSearchResultFor this user = delete "score" (toThumbnailFor this user).
Proof.
  unfold toSearchResultFor, toThumbnailFor. cbv zeta. do 9 f_equal.
  rewrite (delete_delete _ "createdBy" "createdAt").
  by rewrite (delete_delete _ "createdBy" "banners").
Qed.

(** X3. The search result is the thumbnail without its score: the two
    views delete the same properties, in a different order, and the
    search result deletes [score] on top; what else the thumbnail holds,
    the search result holds too. *)
Theorem toSearchResultFor_thumbnail_without_score (this : IRecipe)
    (user : option IUser) :
  toSearchResultFor this user = delete "score" (toThumbnailFor this user)
  ∧ dom (toSearchResultFor this user) = dom (toThumbnailFor this user) ∖ {["score"]}.
Proof.
  rewrite toSearchResultFor_delete_score. split; [done|apply dom_delete_L].
Qed.


(** X5. Both list views drop the owner reference [createdBy]; what they
    keep of the owner is the flag [createdByUser], with [savedByUser],
    for the user they are personalised for, and nothing for an anonymous
    reader. *)
Theorem list_views_owner (this : IRecipe) (user : option IUser) :
  toThumbnailFor this user !! "createdBy" = None
  ∧ toSearchResultFor this user !! "createdBy" = None
  ∧ toThumbnailFor this user !! "createdByUser"
    = (fun u => VBool (isCreatedBy this u)) <$> user
  ∧ toThumbnailFor this user !! "savedByUser"
    = (fun u => VBool (didSaveRecipe u this)) <$> user
  ∧ toSearchResultFor this user !! "createdByUser"
    = toThumbnailFor this user !! "createdByUser"
  ∧ toSearchResultFor this user !! "savedByUser"
    = toThumbnailFor this user !! "savedByUser".
Proof.
  destruct (toJSON_no_flags this) as [Hs Hc].
  rewrite toSearchResultFor_delete_score.
  rewrite !(lookup_delete_ne _ "score") by done.
  split; [unfold toThumbnailFor; cbv zeta; through|].
  split; [unfold toThumbnailFor; cbv zeta; through|].
  split; [|split; [|done]].
  - unfold toThumbnailFor, view_for, toJSONFor. cbv zeta.
    destruct user; cbn [fmap option_fmap option_map]; through;
      [apply lookup_insert_eq|done].
  - unfold toThumbnailFor, view_for, toJSONFor. cbv zeta.
    destruct user; cbn [fmap option_fmap option_map]; through;
      [apply lookup_insert_eq|done].
Qed.


(** ** The edit object *)

Lemma toObject_lookup (this : IRecipe) (k : string) :
  k ∉ ({["_id"; "ratings"; "updatedAt"; "id"; "image_url"]} : gset string) ->
  toObject this !! k = document_paths this !! k.
Proof.
  intros Hk. unfold toObject, transform.
  rewrite !lookup_delete_ne by set_solver.
  apply lookup_applyVirtuals_ne; set_solver.
Qed.

(** X6. [toEditObj] succeeds exactly on the recipes whose banners are
    all populated images; with a banner that is still a raw reference it
    fails with a TypeError. *)
Theorem toEditObj_succeeds_iff_populated (this : IRecipe) :
  ((exists o, toEditObj this = Ok o)
   <-> Forall (fun b => exists img, b = BImg img) (banners this))
  ∧ ((exists msg, toEditObj this = Throw (TypeError msg))
     <-> Exists (fun b => exists id, b = BRef id) (banners this)).
Proof.
  unfold toEditObj. cbv zeta.
  destruct (mapM banner_toEditObject (banners this)) as [bs|] eqn:Hm.
  - apply mapM_Some in Hm.
    assert (Forall (fun b => exists img, b = BImg img) (banners this)) as Hall.
    { clear -Hm. induction Hm as [|b o l k Hb _ IH]; constructor; [|done].
      destruct b; [done|by eexists]. }
    split; split; try done; [by eexists| |].
    + by intros [msg [=]].
    + intros Hex. apply Exists_exists in Hex as (b & Hin & id & ->).
      rewrite Forall_forall in Hall. by destruct (Hall _ Hin) as [img [=]].
  - apply mapM_None in Hm.
    assert (Exists (fun b => exists id, b = BRef id) (banners this)) as Hex.
    { clear -Hm. induction Hm as [b l Hb|b l _ IH].
      - apply Exists_cons_hd. destruct b; [by eexists|done].
      - by apply Exists_cons_tl. }
    split; split; try done; [by intros [o [=]]| |by eexists].
    intros Hall. apply Exists_exists in Hex as (b & Hin & id & ->).
    rewrite Forall_forall in Hall. by destruct (Hall _ Hin) as [img [=]].
Qed.

(** X7. An edit object carries the content of the recipe as the client
    sent it: the name, the description, the category, the servings, the
    time, the tags, the ingredients and the methods, and the id to send
    the edit to. *)
Theorem toEditObj_keeps_content (this : IRecipe) (o : obj) :
  toEditObj this = Ok o ->
  o !! "id" = Some (VStr (_id this))
  ∧ o !! "name" = VStr <$> name this
  ∧ o !! "description" = VStr <$> description this
  ∧ o !! "category" = VStr <$> category this
  ∧ o !! "servings" = VNum <$> servings this
  ∧ o !! "time" = VNum <$> time this
  ∧ o !! "tags" = Some (VArr (VStr <$> tags this))
  ∧ o !! "ingredients" = Some (VArr (ingredient_value <$> ingredients this))
  ∧ o !! "methods" = Some (VArr (VStr <$> methods this)).
Proof.
  unfold toEditObj. cbv zeta.
  destruct (mapM banner_toEditObject (banners this)); [|done].
  intros [= <-].
  split.
  { through. unfold toObject, transform, applyVirtuals. through.
    apply lookup_insert_eq. }
  repeat split; through; rewrite toObject_lookup by set_solver;
    unfold document_paths; through;
    first [ apply lookup_insert_eq
          | by rewrite lookup_set_opt_eq by (through; apply lookup_empty) ].
Qed.

(** ** Rating references and the views *)

Lemma insert_set_opt_commute (k j : string) (x : value) (v : option value)
    (o : obj) :
  k ≠ j -> <[k := x]> (set_opt j v o) = set_opt j v (<[k := x]> o).
Proof. intros Hne. destruct v; simpl; [by apply insert_insert_ne|done]. Qed.

Lemma document_paths_set_ratings (xs : list ObjectId) (this : IRecipe) :
  document_paths (set_ratings xs this)
  = <["ratings" := VArr (VId <$> xs)]> (document_paths this).
Proof.
  unfold document_paths.
  cbn [set_ratings _id name description status category createdBy servings
       time tags banners ingredients methods rating ratings createdAt
       updatedAt score].
  rewrite (insert_insert_ne _ "ratings" "_id") by done.
  rewrite (insert_set_opt_commute "ratings" "name") by done.
  rewrite (insert_set_opt_commute "ratings" "description") by done.
  rewrite (insert_set_opt_commute "ratings" "status") by done.
  rewrite (insert_set_opt_commute "ratings" "category") by done.
  rewrite (insert_set_opt_commute "ratings" "createdBy") by done.
  rewrite (insert_set_opt_commute "ratings" "servings") by done.
  rewrite (insert_set_opt_commute "ratings" "time") by done.
  rewrite (insert_insert_ne _ "ratings" "tags") by done.
  rewrite (insert_insert_ne _ "ratings" "banners") by done.
  rewrite (insert_insert_ne _ "ratings" "ingredients") by done.
  rewrite (insert_insert_ne _ "ratings" "methods") by done.
  rewrite (insert_insert_ne _ "ratings" "rating") by done.
  by rewrite insert_insert_eq.
Qed.

Lemma applyVirtuals_insert (this : IRecipe) (k : string) (x : value) (o : obj) :
  k ≠ "id" -> k ≠ "image_url" ->
  applyVirtuals this (<[k := x]> o) = <[k := x]> (applyVirtuals this o).
Proof.
  intros Hid Hurl. unfold applyVirtuals.
  destruct (image_url this);
    rewrite ?(insert_insert_ne _ "image_url" k) by done;
    by rewrite (insert_insert_ne _ "id" k) by done.
Qed.

Lemma toJSON_set_ratings (xs : list ObjectId) (this : IRecipe) :
  toJSON (set_ratings xs this) = toJSON this.
Proof.
  unfold toJSON. rewrite document_paths_set_ratings.
  change (applyVirtuals (set_ratings xs this)) with (applyVirtuals this).
  rewrite applyVirtuals_insert by done. unfold transform.
  by rewrite delete_insert_ne, delete_insert_eq by done.
Qed.

(** X8. The rating references are not part of any view: after
    [addRating] the JSON view, the thumbnail, the search result and the
    edit object of the recipe are what they were before. *)
Theorem addRating_keeps_views (ratingId : ObjectId) (this : IRecipe) (db : Db) :
  let this' := receiver (addRating ratingId this db) in
  toJSON this' = toJSON this
  ∧ toThumbnailFor this' None = toThumbnailFor this None
  ∧ toSearchResultFor this' None = toSearchResultFor this None
  ∧ toEditObj this' = toEditObj this.
Proof.
  unfold addRating, receiver. cbv zeta.
  case_bool_decide; cbn [fst snd]; [done|].
  destruct (castObjectId ratingId) as [id|]; cbn [fst snd]; [|done].
  pose proof (toJSON_set_ratings (ratings this ++ [id]) this) as HJ.
  split; [done|].
  unfold toThumbnailFor, toSearchResultFor, toEditObj, view_for.
  change (toObject (set_ratings (ratings this ++ [id]) this))
    with (toJSON (set_ratings (ratings this ++ [id]) this)).
  change (toObject this) with (toJSON this).
  by rewrite HJ.
Qed.


(** ** Validation: which fields a failed [create] reports *)

Lemma validate_string_path (p : string) (o : PathOptions) (v : option string)
    (x : string * ValidatorKind) :
  x ∈ validate_string p o v -> x.1 = p.
Proof.
  unfold validate_string. destruct v; repeat case_match;
    rewrite ?list_elem_of_singleton; try by intros ->.
  all: by intros ?%elem_of_nil.
Qed.

Lemma validate_number_path (p : string) (o : PathOptions) (v : option Q)
    (x : string * ValidatorKind) :
  x ∈ validate_number p o v -> x.1 = p.
Proof.
  unfold validate_number. destruct v; repeat case_match;
    rewrite ?list_elem_of_singleton; try by intros ->.
  all: by intros ?%elem_of_nil.
Qed.

Lemma validate_objectid_path (p : string) (o : PathOptions) (v : option ObjectId)
    (x : string * ValidatorKind) :
  x ∈ validate_objectid p o v -> x.1 = p.
Proof.
  unfold validate_objectid. destruct v; repeat case_match;
    rewrite ?list_elem_of_singleton; try by intros ->.
  all: by intros ?%elem_of_nil.
Qed.

Lemma validate_array_path {A} (p : string) (o : PathOptions) (v : list A)
    (x : string * ValidatorKind) :
  x ∈ validate_array p o v -> x.1 = p.
Proof.
  unfold validate_array. destruct v; repeat case_match;
    rewrite ?list_elem_of_singleton; try by intros ->.
  all: by intros ?%elem_of_nil.
Qed.

Lemma validate_banners_path (v : list ObjectId) (db : Db)
    (x : string * ValidatorKind) :
  x ∈ validate_banners v db -> x.1 = "banners".
Proof.
  rewrite validate_banners_spec. destruct v; repeat case_match;
    rewrite ?list_elem_of_singleton; try by intros ->.
  all: by intros ?%elem_of_nil.
Qed.

Lemma validate_ingredients_path (i : nat) (l : list Ingredient)
    (x : string * ValidatorKind) :
  x ∈ validate_ingredients i l -> exists rest, x.1 = "ingredients." +:+ rest.
Proof.
  revert i. induction l as [|y l IH]; intros i; [by intros ?%elem_of_nil|].
  cbn [validate_ingredients]. rewrite !elem_of_app.
  intros [Hx|[Hx|Hx]]; [| |by eapply IH].
  - apply validate_string_path in Hx. by eexists.
  - apply validate_string_path in Hx. by eexists.
Qed.

(** An error of the document names the path whose validator produced it. *)
Lemma elem_of_validate (this : IRecipe) (db : Db) (p : string) (k : ValidatorKind) :
  (p, k) ∈ validate this db <->
  (p = "name" ∧ (p, k) ∈ validate_string "name" RecipeFields.name (name this))
  ∨ (p = "category"
     ∧ (p, k) ∈ validate_string "category" RecipeFields.category (category this))
  ∨ (p = "description"
     ∧ (p, k) ∈ validate_string "description" RecipeFields.description
                  (description this))
  ∨ (p = "servings"
     ∧ (p, k) ∈ validate_number "servings" RecipeFields.servings (servings this))
  ∨ (p = "time" ∧ (p, k) ∈ validate_number "time" RecipeFields.time (time this))
  ∨ (p = "createdBy"
     ∧ (p, k) ∈ validate_objectid "createdBy" RecipeFields.createdBy
                  (createdBy this))
  ∨ (p = "banners" ∧ (p, k) ∈ validate_banners (banner_ref <$> banners this) db)
  ∨ ((exists rest, p = "ingredients." +:+ rest)
     ∧ (p, k) ∈ validate_ingredients 0 (ingredients this))
  ∨ (p = "methods"
     ∧ (p, k) ∈ validate_array "methods" RecipeFields.methods (methods this)).
Proof.
  unfold validate. rewrite !elem_of_app. split.
  - intros [H|[H|[H|[H|[H|[H|[H|[H|H]]]]]]]].
    + left. split; [|done]. by apply validate_string_path in H.
    + right; left. split; [|done]. by apply validate_string_path in H.
    + do 2 right; left. split; [|done]. by apply validate_string_path in H.
    + do 3 right; left. split; [|done]. by apply validate_number_path in H.
    + do 4 right; left. split; [|done]. by apply validate_number_path in H.
    + do 5 right; left. split; [|done]. by apply validate_objectid_path in H.
    + do 6 right; left. split; [|done]. by apply validate_banners_path in H.
    + do 7 right; left. split; [|done]. by apply validate_ingredients_path in H.
    + do 8 right. split; [|done]. by apply validate_array_path in H.
  - intros [[_ H]|[[_ H]|[[_ H]|[[_ H]|[[_ H]|[[_ H]|[[_ H]|[[_ H]|[_ H]]]]]]]]];
      tauto.
Qed.

Lemma validate_string_required_iff (p : string) (o : PathOptions)
    (v : option string) :
  opt_required o = true -> opt_trim o = true ->
  opt_minlength o = None -> opt_maxlength o = None ->
  (p, KRequired) ∈ validate_string p o (apply_string_setters o <$> v)
  <-> nonblank v = false.
Proof.
  intros Hreq Htrim Hmin Hmax.
  destruct (nonblank v) eqn:Hv.
  - rewrite validate_string_nonblank by done. split; [|done].
    by intros ?%elem_of_nil.
  - split; [done|]. intros _. destruct v as [s|]; simpl in *.
    + rewrite Hreq. unfold apply_string_setters. rewrite Htrim.
      apply negb_false_iff in Hv.
      assert (is_empty_string (if opt_lowercase o then toLowerCase (trim s)
                               else trim s) = true) as ->.
      { destruct (opt_lowercase o); by rewrite ?toLowerCase_empty. }
      apply list_elem_of_here.
    + rewrite Hreq. apply list_elem_of_here.
Qed.

Lemma validate_number_range_iff (p : string) (o : PathOptions) (lo hi : Q)
    (v : option Q) :
  opt_min o = Some lo -> opt_max o = Some hi ->
  (exists k, (p, k) ∈ validate_number p o v)
  <-> from_option (in_range lo hi) (negb (opt_required o)) v = false.
Proof.
  intros Hmin Hmax. unfold validate_number, in_range.
  destruct v as [q|]; simpl; rewrite ?Hmin, ?Hmax.
  - destruct (Qle_bool lo q), (Qle_bool q hi); simpl; split; try done.
    all: try (intros _; eexists; apply list_elem_of_here).
    by intros [k ?%elem_of_nil].
  - destruct (opt_required o); simpl; split; try done.
    + intros _. eexists. apply list_elem_of_here.
    + by intros [k ?%elem_of_nil].
Qed.

(** X9. A failed [create] stores nothing and lists each offending field
    and no other: the name or the category when it is missing or blank
    once trimmed, the owner when it is missing, the servings when they
    are missing or outside 1..16, the time when it is outside 1..200, and
    the banners, as 'Image not exists', when a reference resolves to no
    stored image. *)
Theorem create_reports_offending_fields (newId : ObjectId) (now : string)
    (input : RecipeInput) (db : Db) :
  exists errs,
    (errs = [] ∧ (exists r db', create newId now input db = (Ok r, db'))
     ∨ errs ≠ [] ∧ create newId now input db = (Throw (ValidationError errs), db))
    ∧ (("name", KRequired) ∈ errs <-> nonblank (i_name input) = false)
    ∧ (("category", KRequired) ∈ errs <-> nonblank (i_category input) = false)
    ∧ (("createdBy", KRequired) ∈ errs <-> i_createdBy input = None)
    ∧ ((exists k, ("servings", k) ∈ errs)
       <-> from_option (in_range 1 16) false (i_servings input) = false)
    ∧ ((exists k, ("time", k) ∈ errs)
       <-> from_option (in_range 1 200) true (i_time input) = false)
    ∧ (("banners", KUserDefined "Image not exists") ∈ errs
       <-> checkImagesExist (i_banners input) db = false).
Proof.
  exists (validate (new_document newId input) db).
  split.
  { unfold create, save. destruct (validate _ db) eqn:Hv.
    - left. split; [done|]. by eexists _, _.
    - right. done. }
  split; [|split; [|split; [|split; [|split]]]].
  - rewrite elem_of_validate.
    rewrite <- (validate_string_required_iff "name" RecipeFields.name) by done.
    cbn [new_document name]. split; [|tauto].
    intros [[_ H]|[[[=] _]|[[[=] _]|[[[=] _]|[[[=] _]|[[[=] _]|[[[=] _]|
      [[[rest [=]] _]|[[=] _]]]]]]]]]; done.
  - rewrite elem_of_validate.
    rewrite <- (validate_string_required_iff "category" RecipeFields.category)
      by done.
    cbn [new_document category]. split; [|tauto].
    intros [[[=] _]|[[_ H]|[[[=] _]|[[[=] _]|[[[=] _]|[[[=] _]|[[[=] _]|
      [[[rest [=]] _]|[[=] _]]]]]]]]]; done.
  - rewrite elem_of_validate. cbn [new_document createdBy].
    split.
    + intros [[[=] _]|[[[=] _]|[[[=] _]|[[[=] _]|[[[=] _]|[[_ H]|[[[=] _]|
        [[[rest [=]] _]|[[=] _]]]]]]]]].
      destruct (i_createdBy input); [by apply elem_of_nil in H|done].
    + intros ->. do 5 right; left. split; [done|]. apply list_elem_of_here.
  - rewrite <- (validate_number_range_iff "servings" RecipeFields.servings 1 16)
      by done.
    split; intros [k Hk]; exists k.
    + apply elem_of_validate in Hk.
      destruct Hk as [[[=] _]|[[[=] _]|[[[=] _]|[[_ H]|[[[=] _]|[[[=] _]|
        [[[=] _]|[[[rest [=]] _]|[[=] _]]]]]]]]]; done.
    + apply elem_of_validate. do 3 right; left. done.
  - rewrite <- (validate_number_range_iff "time" RecipeFields.time 1 200)
      by done.
    split; intros [k Hk]; exists k.
    + apply elem_of_validate in Hk.
      destruct Hk as [[[=] _]|[[[=] _]|[[[=] _]|[[[=] _]|[[_ H]|[[[=] _]|
        [[[=] _]|[[[rest [=]] _]|[[=] _]]]]]]]]]; done.
    + apply elem_of_validate. do 4 right; left. done.
  - rewrite elem_of_validate. cbn [new_document banners].
    rewrite banner_ref_BRef, validate_banners_spec.
    split.
    + intros [[[=] _]|[[[=] _]|[[[=] _]|[[[=] _]|[[[=] _]|[[[=] _]|[[_ H]|
        [[[rest [=]] _]|[[=] _]]]]]]]]].
      destruct (i_banners input) as [|b bs].
      * destruct array_required_nonempty;
          [by apply list_elem_of_singleton in H|by apply elem_of_nil in H].
      * destruct (checkImagesExist (b :: bs) db);
          [by apply elem_of_nil in H|done].
    + intros Hex. do 6 right; left. split; [done|].
      destruct (i_banners input) as [|b bs]; [done|].
      rewrite Hex. apply list_elem_of_here.
Qed.


(** X24. The number of banners is not bounded from above: for every
    input that is valid apart from its banners and has at least one
    banner reference, all of them resolving to stored images, [create]
    succeeds and stores the recipe with all its banners, however many
    there are. *)
Theorem create_accepts_any_banner_count (newId : ObjectId) (now : string)
    (input : RecipeInput) (db : Db) :
  valid_fields input = true ->
  i_banners input ≠ [] ->
  checkImagesExist (i_banners input) db = true ->
  exists r db',
    create newId now input db = (Ok r, db')
    ∧ banner_ref <$> banners r = i_banners input
    ∧ (exists d, d ∈ recipes db' ∧ _id d = newId
                 ∧ banners d = i_banners input).
Proof.
  intros Hvalid Hne Hex. unfold create, save.
  rewrite validate_new_document by done.
  eexists _, _. split; [reflexivity|].
  cbn [set_timestamps new_document banners]. rewrite banner_ref_BRef.
  split; [done|].
  eexists. split; [apply elem_of_upsert|].
  cbn [depopulate set_banners set_timestamps new_document banners _id].
  by rewrite banner_ref_BRef.
Qed.

(** ** What [create] stores *)

Lemma validate_nil_inv (this : IRecipe) (db : Db) :
  validate this db = [] ->
  validate_string "name" RecipeFields.name (name this) = []
  ∧ validate_string "category" RecipeFields.category (category this) = []
  ∧ validate_number "servings" RecipeFields.servings (servings this) = []
  ∧ validate_number "time" RecipeFields.time (time this) = []
  ∧ validate_objectid "createdBy" RecipeFields.createdBy (createdBy this) = []
  ∧ validate_banners (banner_ref <$> banners this) db = []
  ∧ validate_ingredients 0 (ingredients this) = [].
Proof.
  unfold validate. intros H.
  repeat match type of H with
         | (_ ++ _)%list = [] => apply app_nil in H as [? H]
         end.
  done.
Qed.

Lemma validate_string_required_inv (p : string) (o : PathOptions)
    (v : option string) :
  opt_required o = true -> validate_string p o v = [] ->
  exists s, v = Some s ∧ s ≠ "".
Proof.
  intros Hreq. unfold validate_string. rewrite Hreq.
  destruct v as [[|c s]|]; [done| |done]. intros _. by eexists.
Qed.

Lemma validate_number_inv (p : string) (o : PathOptions) (lo hi q : Q) :
  opt_min o = Some lo -> opt_max o = Some hi ->
  validate_number p o (Some q) = [] -> (lo <= q)%Q ∧ (q <= hi)%Q.
Proof.
  intros Hmin Hmax. unfold validate_number. rewrite Hmin, Hmax.
  destruct (Qle_bool lo q) eqn:Hlo; [|done].
  destruct (Qle_bool q hi) eqn:Hhi; [|done].
  intros _. split; by apply Qle_bool_iff.
Qed.

Lemma validate_ingredients_inv (i : nat) (l : list Ingredient) :
  validate_ingredients i l = [] ->
  Forall (fun x => (exists q, quantity x = Some q ∧ q ≠ "")
                   ∧ (exists t, ingredient x = Some t ∧ t ≠ "")) l.
Proof.
  revert i. induction l as [|x l IH]; intros i; [constructor|].
  cbn [validate_ingredients].
  intros [Hq [Hi Hl]%app_nil]%app_nil. constructor; [|by eapply IH].
  split.
  - exact (validate_string_required_inv _ RecipeFields.quantity _ eq_refl Hq).
  - exact (validate_string_required_inv _ RecipeFields.ingredient _ eq_refl Hi).
Qed.

Lemma lower_ascii_idemp (c : ascii) : lower_ascii (lower_ascii c) = lower_ascii c.
Proof. by destruct c as [[] [] [] [] [] [] [] []]. Qed.

Lemma toLowerCase_idemp (s : string) : toLowerCase (toLowerCase s) = toLowerCase s.
Proof.
  induction s as [|c s IH]; [done|].
  cbn [toLowerCase]. by rewrite lower_ascii_idemp, IH.
Qed.

Lemma checkImagesExist_Forall (refs : list ObjectId) (db : Db) :
  checkImagesExist refs db = true
  <-> Forall (fun id => id ∈ img_id <$> images db) refs.
Proof.
  unfold checkImagesExist. rewrite <- Is_true_true, forallb_True.
  apply Forall_iff. intros id. apply bool_decide_spec.
Qed.

(** X10. [create] stores only valid recipes: a recipe it returns has a
    name and a category that are not empty, the category in lower case,
    servings from 1 to 16, a time from 1 to 200 if it has one, an owner,
    banner references that each resolve to a stored image, ingredients
    with a quantity and a text, no [status], and both timestamps set to
    the time of the call; and the data store holds it under the new id,
    its other collections untouched. *)
Theorem create_stores_valid_recipe (newId : ObjectId) (now : string)
    (input : RecipeInput) (db db' : Db) (r : IRecipe) :
  create newId now input db = (Ok r, db') ->
  _id r = newId
  ∧ (exists n, name r = Some n ∧ n ≠ "")
  ∧ (exists c, category r = Some c ∧ c ≠ "" ∧ toLowerCase c = c)
  ∧ (exists s, servings r = Some s ∧ (1 <= s)%Q ∧ (s <= 16)%Q)
  ∧ (forall t, time r = Some t -> (1 <= t)%Q ∧ (t <= 200)%Q)
  ∧ is_Some (createdBy r)
  ∧ Forall (fun b => banner_ref b ∈ img_id <$> images db) (banners r)
  ∧ Forall (fun x => (exists q, quantity x = Some q ∧ q ≠ "")
                     ∧ (exists t, ingredient x = Some t ∧ t ≠ ""))
      (ingredients r)
  ∧ status r = None
  ∧ createdAt r = Some now ∧ updatedAt r = Some now
  ∧ depopulate r ∈ recipes db'
  ∧ images db' = images db ∧ ratingDocs db' = ratingDocs db.
Proof.
  unfold create, save.
  destruct (validate (new_document newId input) db) eqn:Hv; [|done].
  intros [= <- <-].
  apply validate_nil_inv in Hv
    as (Hname & Hcat & Hserv & Htime & Hown & Hban & Hing).
  cbn [set_timestamps _id name category servings time createdBy banners
       ingredients status createdAt updatedAt new_document default] in *.
  split; [done|].
  split;
    [exact (validate_string_required_inv _ RecipeFields.name _ eq_refl Hname)|].
  split.
  { apply (validate_string_required_inv _ RecipeFields.category _ eq_refl)
      in Hcat as (c & Hc & Hne).
    exists c. split; [done|]. split; [done|].
    destruct (i_category input) as [c0|]; [|done].
    injection Hc as <-. unfold apply_string_setters. simpl.
    apply toLowerCase_idemp. }
  split.
  { destruct (i_servings input) as [s|]; [|done].
    exists s. split; [done|].
    by apply (validate_number_inv "servings" RecipeFields.servings). }
  split.
  { intros t Ht. rewrite Ht in Htime.
    by apply (validate_number_inv "time" RecipeFields.time). }
  split; [by destruct (i_createdBy input)|].
  split.
  { rewrite banner_ref_BRef, validate_banners_spec in Hban.
    apply Forall_fmap.
    destruct (i_banners input) as [|b bs] eqn:Hbs; [constructor|].
    destruct (checkImagesExist (b :: bs) db) eqn:Hex; [|done].
    apply checkImagesExist_Forall in Hex. exact Hex. }
  split; [exact (validate_ingredients_inv _ _ Hing)|].
  split; [done|]. split; [done|]. split; [done|].
  split; [apply elem_of_upsert|done].
Qed.

(** X11. The owner of a created recipe is recognised, and only the
    owner: the recipe loaded from the data store is created by a user
    exactly when the user's id is the owner given at creation, and that
    is what its personalised JSON view says under [createdByUser]. *)
Theorem created_recipe_owner (newId : ObjectId) (now : string)
    (input : RecipeInput) (db db' : Db) (r : IRecipe) :
  create newId now input db = (Ok r, db') ->
  exists owner r',
    i_createdBy input = Some owner
    ∧ findById newId true db' = Some r'
    ∧ forall user : IUser,
        isCreatedBy r' user = bool_decide (owner = user_id user)
        ∧ toJSONFor r' user !! "createdByUser"
          = Some (VBool (bool_decide (owner = user_id user))).
Proof.
  unfold create, save.
  destruct (validate (new_document newId input) db) eqn:Hv; [|done].
  intros [= <- <-].
  apply validate_nil_inv in Hv as (_ & _ & _ & _ & Hown & _).
  cbn [new_document createdBy] in Hown.
  destruct (i_createdBy input) as [owner|] eqn:Hi; [|done].
  eexists owner, _. split; [done|]. split.
  { exact (findById_upsert
             (depopulate (set_timestamps now (new_document newId input)))
             true db). }
  intros user.
  assert (isCreatedBy
            (hydrate true
               (set_recipes
                  (upsert (depopulate (set_timestamps now (new_document newId input)))
                     (recipes db)) db)
               (depopulate (set_timestamps now (new_document newId input))))
            user = bool_decide (owner = user_id user)) as Hc.
  { unfold isCreatedBy.
    cbn [hydrate depopulate set_banners set_timestamps new_document createdBy].
    by rewrite Hi. }
  split; [done|]. unfold toJSONFor. by rewrite lookup_insert_eq, Hc.
Qed.

(** ** The collection controller *)

Lemma find_id_None (id : ObjectId) (l : list StoredRecipe) :
  id ∉ _id <$> l -> List.find (fun d => bool_decide (_id d = id)) l = None.
Proof.
  induction l as [|x l IH]; [done|].
  rewrite fmap_cons, not_elem_of_cons. intros [Hne Hnin]. simpl.
  rewrite bool_decide_eq_false_2 by done. by apply IH.
Qed.

Lemma find_id_Some (id : ObjectId) (l : list StoredRecipe) (d : StoredRecipe) :
  List.find (fun d => bool_decide (_id d = id)) l = Some d ->
  d ∈ l ∧ _id d = id.
Proof.
  induction l as [|x l IH]; [done|]. simpl.
  case_bool_decide as Hx.
  - intros [= <-]. split; [apply list_elem_of_here|done].
  - intros [Hin Hid]%IH. split; [by apply list_elem_of_further|done].
Qed.

Lemma preloadRecipe_cast (req : Request) (recipeId : ObjectId) (db : Db) :
  req_user (preloadRecipe req recipeId db).1 = req_user req
  ∧ (((recipeId ∉ _id <$> recipes db)
      ∧ preloadRecipe req recipeId db
        = (req, NextError (HTTP404Error "Recipe not found")))
     ∨ (exists d,
          d ∈ recipes db ∧ _id d = recipeId
          ∧ preloadRecipe req recipeId db
            = (mkRequest (req_user req)
                 (Some (set_banners (BRef <$> banners d) d)), NextOk))).
Proof.
  unfold preloadRecipe, findById.
  destruct (List.find _ (recipes db)) as [d|] eqn:Hf; cbn [fmap option_fmap option_map fst].
  - split; [done|]. right. apply find_id_Some in Hf as [Hin Hid].
    exists d. by repeat split.
  - split; [done|]. left. split; [|done].
    intros Hin. apply list_elem_of_fmap in Hin as (d & -> & Hd).
    clear -Hf Hd. induction Hd as [d l|d x l Hd IH]; simpl in Hf.
    + by rewrite bool_decide_eq_true_2 in Hf.
    + destruct (bool_decide (_id x = _id d)); [done|]. by apply IH.
Qed.

(** X12. [preloadRecipe] leaves the user of the request alone, and does
    one of three things with the route parameter: when the parameter
    cannot be cast to an ObjectId it passes the CastError to [next] and
    leaves the request as it was; when it casts to an id that no stored
    recipe has it passes the 404 'Recipe not found' to [next] and leaves
    the request as it was; and when it casts to the id of a stored recipe
    it attaches that recipe, its banners as raw references, and calls
    [next] without an error. *)
Theorem preloadRecipe_spec (req : Request) (param : string) (db : Db) :
  req_user (preloadRecipe_route req param db).1 = req_user req
  ∧ ((castObjectId param = None
      ∧ preloadRecipe_route req param db = (req, NextCastError param))
     ∨ (exists recipeId,
          castObjectId param = Some recipeId
          ∧ (recipeId ∉ _id <$> recipes db)
          ∧ preloadRecipe_route req param db
            = (req, NextError (HTTP404Error "Recipe not found")))
     ∨ (exists recipeId d,
          castObjectId param = Some recipeId
          ∧ d ∈ recipes db ∧ _id d = recipeId
          ∧ preloadRecipe_route req param db
            = (mkRequest (req_user req)
                 (Some (set_banners (BRef <$> banners d) d)), NextOk))).
Proof.
  unfold preloadRecipe_route.
  destruct (castObjectId param) as [recipeId|]; [|split; [done|by left]].
  destruct (preloadRecipe_cast req recipeId db) as [Hu [[Hn He]|(d & Hd & Hi & He)]].
  - split; [done|]. right; left. by exists recipeId.
  - split; [done|]. right; right. by exists recipeId, d.
Qed.

(** X13. A recipe that was just created is found by [preloadRecipe], and
    what the handler attaches has the banner references of the input, in
    order and unresolved: its [image_url] is undefined and it cannot be
    turned into an edit object. *)
Theorem preloadRecipe_after_create (newId : ObjectId) (now : string)
    (input : RecipeInput) (db db' : Db) (r : IRecipe) (req : Request) :
  create newId now input db = (Ok r, db') ->
  i_banners input ≠ [] ->
  exists r',
    preloadRecipe req newId db' = (mkRequest (req_user req) (Some r'), NextOk)
    ∧ _id r' = newId
    ∧ banners r' = BRef <$> i_banners input
    ∧ image_url r' = VUndefined
    ∧ exists msg, toEditObj r' = Throw (TypeError msg).
Proof.
  unfold create, save.
  destruct (validate (new_document newId input) db) eqn:Hv; [|done].
  intros [= <- <-] Hne.
  pose proof (findById_upsert
                (depopulate (set_timestamps now (new_document newId input)))
                false db) as Hf.
  cbv zeta in Hf. unfold preloadRecipe.
  change newId with
    (_id (depopulate (set_timestamps now (new_document newId input)))) at 1.
  rewrite Hf. eexists. split; [reflexivity|]. split; [done|].
  assert (banners
            (hydrate false
               (set_recipes
                  (upsert (depopulate (set_timestamps now (new_document newId input)))
                     (recipes db)) db)
               (depopulate (set_timestamps now (new_document newId input))))
          = BRef <$> i_banners input) as Hb.
  { cbn [hydrate depopulate set_banners set_timestamps new_document banners].
    by rewrite banner_ref_BRef. }
  split; [done|].
  destruct (i_banners input) as [|b bs] eqn:Hbs; [done|].
  split; [unfold image_url; by rewrite Hb|].
  apply (toEditObj_raw_reference _ b). rewrite Hb. apply list_elem_of_here.
Qed.


(** ** The rating roll-up in general *)

Lemma avg_cons (q : Q) (l : list Q) :
  avg (q :: l)
  = VNum (Qred (sum_Q (q :: l) / inject_Z (Z.of_nat (length (q :: l))))).
Proof. done. Qed.

Lemma updateRating_matched (now : string) (this : IRecipe) (db : Db) :
  filter (fun x => recipeId x = _id this) (ratingDocs db) ≠ [] ->
  updateRating now this db
  = save now
      (set_rating
         (<["avg" := avg (rateValue <$> filter (fun x => recipeId x = _id this)
                                          (ratingDocs db))]>
          (<["total" := VInt (length (filter (fun x => recipeId x = _id this)
                                        (ratingDocs db)))]> ∅))
         this) db.
Proof.
  intros Hne. unfold updateRating.
  rewrite aggregate_ratings_matched by done.
  by rewrite delete_id_rating_group.
Qed.

Lemma save_receiver_rating (now : string) (this : IRecipe) (db : Db) :
  rating (receiver (save now this db)) = rating this.
Proof. unfold save, receiver. by destruct (validate this db). Qed.

Lemma updateRating_save_summary (now : string) (this : IRecipe) (db : Db) :
  let matched := filter (fun x => recipeId x = _id this) (ratingDocs db) in
  let summary :=
    rating_summary
      (Qred (sum_Q (rateValue <$> matched) / inject_Z (Z.of_nat (length matched))))
      (inject_Z (Z.of_nat (length matched))) in
  matched ≠ [] ->
  updateRating now this db = save now (set_rating summary this) db
  ∧ rating (receiver (updateRating now this db)) = summary.
Proof.
  intros matched summary Hne.
  assert (updateRating now this db = save now (set_rating summary this) db) as Hu.
  { rewrite updateRating_matched by done. fold matched.
    unfold summary, rating_summary, VInt.
    destruct matched as [|x l] eqn:Hm; [done|].
    rewrite fmap_cons, avg_cons. by rewrite <- fmap_cons, length_fmap. }
  split; [done|]. by rewrite Hu, save_receiver_rating.
Qed.

Lemma sum_Q_const (z : Z) (l : list Q) :
  Forall (fun q => q = inject_Z z) l ->
  (sum_Q l == inject_Z z * inject_Z (Z.of_nat (length l)))%Q.
Proof.
  induction 1 as [|q l -> _ IH].
  - change (inject_Z (Z.of_nat (length (@nil Q)))) with 0%Q.
    change (sum_Q []) with 0%Q. lra.
  - cbn [length sum_Q foldr]. fold (sum_Q l).
    rewrite Nat2Z.inj_succ, <- Z.add_1_r, inject_Z_plus, IH.
    change (inject_Z 1) with 1%Q. lra.
Qed.

(** X14. For every recipe with at least one matching rating record,
    [updateRating] replaces the rating summary by {avg, total} and saves
    the recipe with it: [total] is the number of matching records, the
    records of other recipes not counting; nothing of the former summary
    is left, not even the [avgRating] of the default; and [avg] is the
    rate value itself when all the matching records carry one and the
    same integer (the records times the value within 2^53, where the sum
    is exact in double precision). *)
Theorem updateRating_summary (now : string) (this : IRecipe) (db : Db) :
  let matched := filter (fun x => recipeId x = _id this) (ratingDocs db) in
  let total := inject_Z (Z.of_nat (length matched)) in
  matched ≠ [] ->
  exists a,
    updateRating now this db
    = save now (set_rating (rating_summary a total) this) db
    ∧ rating (receiver (updateRating now this db)) = rating_summary a total
    ∧ dom (rating (receiver (updateRating now this db))) = {[ "avg"; "total" ]}
    ∧ rating (receiver (updateRating now this db)) !! "total" = Some (VNum total)
    ∧ rating (receiver (updateRating now this db)) !! "avgRating" = None
    ∧ (forall z : Z,
         Forall (fun x => rateValue x = inject_Z z) matched ->
         (Z.of_nat (length matched) * Z.abs z <= 2 ^ 53)%Z ->
         a = inject_Z z).
Proof.
  intros matched total Hne.
  destruct (updateRating_save_summary now this db Hne) as [Hu Hr].
  fold matched in Hu, Hr. fold total in Hu, Hr.
  eexists. split; [exact Hu|]. split; [exact Hr|]. rewrite Hr.
  unfold rating_summary. split; [|split; [|split]].
  - rewrite !dom_insert_L, dom_empty_L. set_solver.
  - through. apply lookup_insert_eq.
  - through. apply lookup_empty.
  - intros z Hall _.
    rewrite <- (Qcanon.Qred_identity (inject_Z z)) by apply Z.gcd_1_r.
    apply Qred_complete.
    rewrite (sum_Q_const z) by (by apply Forall_fmap).
    rewrite length_fmap.
    assert (0 < inject_Z (Z.of_nat (length matched)))%Q as Hpos.
    { destruct matched; [done|]. cbn [length].
      change 0%Q with (inject_Z 0). rewrite <- Zlt_Qlt. lia. }
    apply Qdiv_mult_l. apply Qnot_eq_sym, Qlt_not_eq, Hpos.
Qed.

Lemma sum_Q_bounds (lo hi : Q) (l : list Q) :
  Forall (fun q => (lo <= q)%Q ∧ (q <= hi)%Q) l ->
  (lo * inject_Z (Z.of_nat (length l)) <= sum_Q l)%Q
  ∧ (sum_Q l <= hi * inject_Z (Z.of_nat (length l)))%Q.
Proof.
  induction 1 as [|q l [Hlo Hhi] _ [IHlo IHhi]].
  - change (inject_Z (Z.of_nat (length (@nil Q)))) with 0%Q.
    change (sum_Q []) with 0%Q. split; lra.
  - cbn [length sum_Q foldr]. fold (sum_Q l).
    rewrite Nat2Z.inj_succ, <- Z.add_1_r, inject_Z_plus.
    change (inject_Z 1) with 1%Q. split; lra.
Qed.

(** X15. For integer rate values the average stays within their range:
    when every matching rate value is an integer between the integers
    [lo] and [hi], so is the [avg] that [updateRating] sets (the records
    times the bounds within 2^53, where the sum is exact in double
    precision and the rounding of the quotient cannot leave the range). *)
Theorem updateRating_avg_bounds (now : string) (this : IRecipe) (db : Db)
    (lo hi : Z) :
  let matched := filter (fun x => recipeId x = _id this) (ratingDocs db) in
  matched ≠ [] ->
  Forall (fun x => exists z : Z,
                     rateValue x = inject_Z z ∧ (lo <= z)%Z ∧ (z <= hi)%Z)
    matched ->
  (Z.of_nat (length matched) * Z.max (Z.abs lo) (Z.abs hi) <= 2 ^ 53)%Z ->
  exists a,
    rating (receiver (updateRating now this db)) !! "avg" = Some (VNum a)
    ∧ (inject_Z lo <= a)%Q ∧ (a <= inject_Z hi)%Q.
Proof.
  intros matched Hne Hall _.
  destruct (updateRating_save_summary now this db Hne) as (_ & ->).
  fold matched. unfold rating_summary. rewrite lookup_insert_eq.
  eexists. split; [reflexivity|].
  assert (0 < inject_Z (Z.of_nat (length matched)))%Q as Hpos.
  { destruct matched; [done|]. cbn [length].
    change 0%Q with (inject_Z 0). rewrite <- Zlt_Qlt. lia. }
  destruct (sum_Q_bounds (inject_Z lo) (inject_Z hi) (rateValue <$> matched))
    as [Hlo Hhi].
  { apply Forall_fmap. eapply Forall_impl; [exact Hall|].
    intros x (z & Hx & Hz1 & Hz2). unfold compose. cbv beta. rewrite Hx.
    split; by rewrite <- Zle_Qle. }
  rewrite length_fmap in Hlo, Hhi. rewrite Qred_correct. split.
  - by apply Qle_shift_div_l.
  - by apply Qle_shift_div_r.
Qed.

(** X16. When the recipe does not pass validation, [updateRating] fails
    with the ValidationError of [save] and the data store is left as it
    was, but the receiver already carries the new summary, with the
    number of matching records as its [total]: the summary is assigned
    before the save. *)
Theorem updateRating_invalid_recipe (now : string) (this : IRecipe) (db : Db) :
  let matched := filter (fun x => recipeId x = _id this) (ratingDocs db) in
  matched ≠ [] ->
  validate this db ≠ [] ->
  outcome (updateRating now this db) = Throw (ValidationError (validate this db))
  ∧ store (updateRating now this db) = db
  ∧ exists a,
      rating (receiver (updateRating now this db))
      = rating_summary a (inject_Z (Z.of_nat (length matched))).
Proof.
  intros matched Hne Hinv.
  destruct (updateRating_save_summary now this db Hne) as (Hu & Hr).
  split; [|split; [|by eexists]]; rewrite Hu; unfold save, outcome, store;
    match goal with
    | |- context [validate (set_rating ?s this) db] =>
        change (validate (set_rating s this) db) with (validate this db)
    end;
    by destruct (validate this db).
Qed.

Lemma upsert_lookup_other (d x : StoredRecipe) (l : list StoredRecipe) (i : nat) :
  l !! i = Some x -> _id x ≠ _id d -> upsert d l !! i = Some x.
Proof.
  revert i. induction l as [|y l IH]; intros i; [done|].
  simpl. destruct i as [|i]; simpl.
  - intros [= ->] Hne. by rewrite decide_False.
  - intros Hx Hne. case_decide; [done|]. by apply IH.
Qed.

Lemma upsert_ids_stored (d : StoredRecipe) (l : list StoredRecipe) :
  _id d ∈ _id <$> l -> _id <$> upsert d l = _id <$> l.
Proof.
  induction l as [|y l IH]; [by intros ?%elem_of_nil|].
  rewrite fmap_cons, elem_of_cons. intros Hin. simpl.
  case_decide as Hy; simpl; [by rewrite Hy|].
  f_equal. apply IH. destruct Hin as [Heq|Hin]; [|done].
  by rewrite Heq in Hy.
Qed.

Lemma upsert_fresh (d : StoredRecipe) (l : list StoredRecipe) :
  _id d ∉ _id <$> l -> upsert d l = (l ++ [d])%list.
Proof.
  induction l as [|y l IH]; [done|].
  rewrite fmap_cons, not_elem_of_cons. intros [Hne Hnin]. simpl.
  rewrite decide_False by done. by rewrite IH.
Qed.

(** X17. Whatever its outcome, [updateRating] touches one document: the
    images and the rating records are untouched, every stored recipe with
    another id stays where it is, and when the recipe is a stored one the
    data store holds the same ids in the same order afterwards. *)
Theorem updateRating_frame (now : string) (this : IRecipe) (db : Db) :
  let db' := store (updateRating now this db) in
  images db' = images db
  ∧ ratingDocs db' = ratingDocs db
  ∧ (forall i d, recipes db !! i = Some d -> _id d ≠ _id this ->
       recipes db' !! i = Some d)
  ∧ (_id this ∈ _id <$> recipes db -> _id <$> recipes db' = _id <$> recipes db).
Proof.
  unfold updateRating, store.
  destruct (aggregate_ratings (_id this) db) as [|r0 rs]; [done|].
  unfold save. cbv zeta.
  destruct (validate _ db); [|done]. cbn [snd set_recipes images ratingDocs recipes].
  split; [done|]. split; [done|]. split.
  - intros i d Hd Hne. by apply upsert_lookup_other.
  - intros Hin. by apply upsert_ids_stored.
Qed.

(** ** Rating references *)

(** X18. [addRating] only ever appends: the references the recipe had
    stay, in order, at the front; at most one is added, the cast of the
    id when the id as given is not among them; nothing else of the recipe
    changes, the rating summary included; for an id in canonical form a
    list without duplicates stays without duplicates; and an id that is
    not among the references and cannot be cast makes the call fail with
    a CastError, the recipe as it was. *)
Theorem addRating_appends (ratingId : string) (this : IRecipe) (db : Db) :
  let this' := receiver (addRating ratingId this db) in
  ratings this `prefix_of` ratings this'
  ∧ (length (ratings this') <= S (length (ratings this)))%nat
  ∧ this' = set_ratings (ratings this') this
  ∧ rating this' = rating this
  ∧ (ratingId ∉ ratings this ->
     forall id, castObjectId ratingId = Some id ->
                ratings this' = (ratings this ++ [id])%list)
  ∧ (castObjectId ratingId = Some ratingId ->
     NoDup (ratings this) -> NoDup (ratings this'))
  ∧ (ratingId ∉ ratings this -> castObjectId ratingId = None ->
     addRating ratingId this db
     = (Throw (CastError "ratings" ratingId), this, db)).
Proof.
  unfold addRating, receiver. cbv zeta.
  case_bool_decide as Hin; cbn [fst snd].
  - repeat split; try done; [lia|by destruct this].
  - destruct (castObjectId ratingId) as [id|] eqn:Hcast; cbn [fst snd].
    + cbn [ratings set_ratings]. repeat split; try done.
      * by exists [id].
      * rewrite length_app. simpl. lia.
      * by intros _ id' [= ->].
      * intros [= ->] Hnd. apply NoDup_app.
        repeat split; [done| |apply NoDup_singleton].
        intros x Hx ->%list_elem_of_singleton. done.
    + repeat split; try done; [lia|by destruct this].
Qed.

(** X19. The roll-up does not read the rating references: the summary
    [updateRating] computes is the same whether or not a reference was
    added to the recipe first; it is the rating records of the data store
    that count. *)
Theorem updateRating_ignores_references (now : string) (ratingId : ObjectId)
    (this : IRecipe) (db : Db) :
  let this' := receiver (addRating ratingId this db) in
  rating (receiver (updateRating now this' db))
  = rating (receiver (updateRating now this db))
  ∧ (outcome (updateRating now this' db) = Throw (TypeError "Cannot convert undefined or null to object")
     <-> outcome (updateRating now this db) = Throw (TypeError "Cannot convert undefined or null to object")).
Proof.
  unfold addRating, receiver. cbv zeta.
  case_bool_decide as Hin; cbn [fst snd]; [done|].
  destruct (castObjectId ratingId) as [id|]; cbn [fst snd]; [|done].
  unfold updateRating.
  change (_id (set_ratings (ratings this ++ [id]) this)) with (_id this).
  destruct (aggregate_ratings (_id this) db) as [|r0 rs]; [done|].
  cbv zeta. unfold save, outcome.
  match goal with
  | |- context [validate (set_rating ?s (set_ratings ?xs this)) db] =>
      change (validate (set_rating s (set_ratings xs this)) db)
        with (validate (set_rating s this) db)
  end.
  by destruct (validate _ db).
Qed.


(** ** The category entries in general *)

Section GroupSizes.
Context {K A : Type} `{EqDecision K} (key : A -> K).

Lemma length_filter_key_cons (k : K) (ks : list K) (l : list A) :
  k ∉ ks ->
  length (filter (fun a => key a ∈ k :: ks) l)
  = (length (filter (fun a => key a = k) l)
     + length (filter (fun a => key a ∈ ks) l))%nat.
Proof.
  intros Hk. induction l as [|a l IH]; [done|].
  rewrite !filter_cons.
  destruct (decide (key a = k)) as [Heq|Hne].
  - rewrite decide_True by (rewrite Heq; apply list_elem_of_here).
    rewrite (decide_False (P := key a ∈ ks)) by (by rewrite Heq).
    simpl. by rewrite IH.
  - destruct (decide (key a ∈ ks)) as [Hin|Hnin].
    + rewrite decide_True by (by apply list_elem_of_further).
      simpl. rewrite IH. lia.
    + rewrite decide_False; [done|].
      rewrite elem_of_cons. by intros [?|?].
Qed.

Lemma sum_group_sizes (ks : list K) (l : list A) :
  NoDup ks ->
  sum_list ((fun k => length (filter (fun a => key a = k) l)) <$> ks)
  = length (filter (fun a => key a ∈ ks) l).
Proof.
  induction 1 as [|k ks Hk _ IH].
  - simpl. symmetry. apply length_zero_iff_nil, filter_Forall_not.
    apply Forall_forall. intros a _. apply not_elem_of_nil.
  - rewrite fmap_cons. cbn [sum_list]. rewrite IH.
    by rewrite length_filter_key_cons.
Qed.

(** The groups partition the list. *)
Lemma group_by_sizes (l : list A) :
  sum_list ((fun g => length g.2) <$> group_by key l) = length l
  ∧ Forall (fun g => (1 <= length g.2)%nat) (group_by key l).
Proof.
  split.
  - unfold group_by. rewrite <- list_fmap_compose.
    rewrite (sum_group_sizes _ l (NoDup_remove_dups _)).
    f_equal. apply filter_Forall_id, Forall_forall. intros a Ha.
    apply elem_of_remove_dups. by apply list_elem_of_fmap_2.
  - apply Forall_forall. intros [k members] Hg.
    apply elem_of_group_by in Hg as [Hk ->].
    apply list_elem_of_fmap in Hk as (a & -> & Ha). simpl.
    assert (a ∈ filter (fun a0 => key a0 = key a) l) as Hin
      by (by apply list_elem_of_filter).
    destruct (filter _ l); [by apply elem_of_nil in Hin|simpl; lia].
Qed.

Lemma group_by_nil_iff (l : list A) : group_by key l = [] <-> l = [].
Proof.
  split; [|by intros ->].
  destruct l as [|a l]; [done|]. intros Hg.
  assert ((key a, filter (fun x => key x = key a) (a :: l))
          ∈ group_by key (a :: l)) as Hin.
  { apply elem_of_group_by. split; [|done]. rewrite fmap_cons.
    apply list_elem_of_here. }
  rewrite Hg in Hin. by apply elem_of_nil in Hin.
Qed.

End GroupSizes.

(** X20. The totals of the category entries count every public recipe
    with a category exactly once: they add up to the number of such
    recipes, and no entry has a total of 0. *)
Theorem getCategories_totals (limit : option nat) (db : Db) :
  exists counts : list nat,
    (fun e : obj => e !! "total") <$> getCategories limit db
    = (fun n => Some (VInt n)) <$> counts
    ∧ sum_list counts = length (filter matches_public (recipes db))
    ∧ Forall (fun n => (1 <= n)%nat) counts.
Proof.
  exists ((fun g => length g.2)
            <$> group_by category (filter matches_public (recipes db))).
  destruct (group_by_sizes category (filter matches_public (recipes db)))
    as [Hsum Hpos].
  split; [|split; [done|by apply Forall_fmap]].
  unfold getCategories. rewrite <- !list_fmap_compose.
  apply list_fmap_ext. intros _ [k members] _. simpl.
  unfold category_group. through. apply lookup_insert_eq.
Qed.

(** X21. [getCategories] returns no entry exactly when no stored recipe
    is public with a category: recipes that are private, that have no
    [status], or that have no category do not make a category. *)
Theorem getCategories_empty_iff (limit : option nat) (db : Db) :
  getCategories limit db = []
  <-> Forall (fun r => ¬ (status r = Some true ∧ category r ≠ None)) (recipes db).
Proof.
  unfold getCategories. split.
  - intros Hf%fmap_nil_inv%group_by_nil_iff.
    apply Forall_forall. intros r Hr Hp.
    by apply (filter_nil_not_elem_of _ _ r Hf).
  - intros Hall. rewrite (filter_Forall_not matches_public) by done. done.
Qed.

(** X22. A recipe that [create] stores under a fresh id is not public,
    [status] being no path of the schema, so the category entries are the
    same after the creation as before. *)
Theorem create_keeps_categories (newId : ObjectId) (now : string)
    (input : RecipeInput) (db db' : Db) (r : IRecipe) (limit : option nat) :
  newId ∉ _id <$> recipes db ->
  create newId now input db = (Ok r, db') ->
  status r = None
  ∧ getCategories limit db' = getCategories limit db.
Proof.
  intros Hfresh. unfold create, save.
  destruct (validate (new_document newId input) db); [|done].
  intros [= <- <-]. split; [done|].
  unfold getCategories, set_recipes. cbn [recipes].
  rewrite upsert_fresh by done.
  rewrite filter_app, filter_cons_False, filter_nil, app_nil_r; [done|].
  by intros [[=] _].
Qed.

(** X23. The image of a category entry is the first banner reference of
    the last stored recipe that is public in that category, and [null]
    when that recipe has no banner. *)
Theorem getCategories_image_of_last (limit : option nat) (db : Db)
    (before after : list StoredRecipe) (r : StoredRecipe) (c : string) :
  recipes db = (before ++ r :: after)%list ->
  status r = Some true ->
  category r = Some c ->
  Forall (fun x => ¬ (status x = Some true ∧ category x = Some c)) after ->
  exists e,
    e ∈ getCategories limit db
    ∧ e !! "_id" = Some (VStr c)
    ∧ e !! "image_url"
      = Some (match banners r with
              | id :: _ => VId id
              | [] => VNull
              end).
Proof.
  intros Hdb Hst Hcat Hafter.
  set (members := filter (fun x => category x = Some c)
                    (filter matches_public (recipes db))).
  exists (category_group (Some c) members).
  destruct (category_group_lookup (Some c) members) as (Hid & _ & Himg & _).
  split; [|split; [done|]].
  - apply elem_of_getCategories. exists c. split; [|done].
    exists r. rewrite Hdb. split; [|done].
    apply elem_of_app. right. apply list_elem_of_here.
  - rewrite Himg. f_equal.
    assert (last members = Some r) as ->.
    { unfold members. rewrite Hdb, !filter_app.
      rewrite (filter_cons_True matches_public r)
        by (split; [done|by rewrite Hcat]).
      rewrite (filter_cons_True _ r) by done.
      assert (filter (fun x => category x = Some c)
                (filter matches_public after) = []) as ->.
      { rewrite list_filter_filter. apply filter_Forall_not.
        eapply Forall_impl; [exact Hafter|].
        intros x Hx [Hc [Hs _]]. by apply Hx. }
      apply last_snoc. }
    unfold first_banner. simpl. by destruct (banners r).
Qed.

End Odm.

(** * The properties at the sample documents *)


Lemma addRating_idempotent_witness :
  castObjectId sample_driver rating_ref = Some rating_ref
  ∧ addRating sample_driver rating_ref
      (receiver (addRating sample_driver rating_ref soup_loaded sample_db))
      (store (addRating sample_driver rating_ref soup_loaded sample_db))
    = addRating sample_driver rating_ref soup_loaded sample_db.
Proof.
  assert (castObjectId sample_driver rating_ref = Some rating_ref) as H
    by (vm_compute; reflexivity).
  split; [exact H|].
  exact (proj1 (addRating_idempotent sample_driver rating_ref soup_loaded
                  sample_db H)).
Defined.

Lemma updateRating_without_ratings_witness :
  Forall (fun x => recipeId x ≠ _id unrated) (ratingDocs sample_db)
  ∧ aggregate_ratings (_id unrated) sample_db = [].
Proof.
  assert (Forall (fun x => recipeId x ≠ _id unrated) (ratingDocs sample_db)) as H
    by (repeat constructor; vm_compute; discriminate).
  split; [exact H|].
  exact (proj1 (updateRating_without_ratings false "t1" unrated sample_db H)).
Defined.

Lemma toEditObj_expands_banners_witness :
  banners soup_loaded = BImg <$> [sample_image "1"]
  ∧ exists o : obj,
      toEditObj soup_loaded = Ok o
      ∧ o !! "createdBy" = None
      ∧ o !! "createdAt" = None
      ∧ o !! "banners"
        = Some (VArr ((fun x => VObj (<["id" := VStr (img_id x)]>
                                     (<["url" := VStr (url x)]> ∅)))
                        <$> [sample_image "1"])).
Proof.
  assert (banners soup_loaded = BImg <$> [sample_image "1"]) as H
    by (vm_compute; reflexivity).
  split; [exact H|].
  exact (toEditObj_expands_banners soup_loaded [sample_image "1"] H).
Defined.



Lemma created_rating_has_no_avg_witness :
  i_rating (sample_input ["img-1"; "img-2"]) = None
  ∧ create false "r9" "t1" (sample_input ["img-1"; "img-2"]) sample_db
    = (Ok created,
       set_recipes (upsert (depopulate created) (recipes sample_db)) sample_db)
  ∧ rating created !! "avg" = None.
Proof.
  assert (create false "r9" "t1" (sample_input ["img-1"; "img-2"]) sample_db
          = (Ok created,
             set_recipes (upsert (depopulate created) (recipes sample_db))
               sample_db)) as H
    by (vm_compute; reflexivity).
  split; [reflexivity|]. split; [exact H|].
  exact (proj1 (proj2 (created_rating_has_no_avg false "r9" "t1"
                         (sample_input ["img-1"; "img-2"]) sample_db _ created
                         eq_refl H))).
Defined.

Lemma sample_creation :
  create false "r9" "t1" (sample_input ["img-1"; "img-2"]) sample_db
  = (Ok created, sample_db_created).
Proof. vm_compute. reflexivity. Defined.

Lemma soup_is_rated :
  filter (fun x => recipeId x = _id soup_loaded) (ratingDocs sample_db) ≠ [].
Proof. intros H. vm_compute in H. discriminate H. Defined.

Lemma toEditObj_keeps_content_witness :
  toEditObj soup_loaded = Ok soup_edit_object
  ∧ soup_edit_object !! "name" = Some (VStr "Pho").
Proof.
  assert (toEditObj soup_loaded = Ok soup_edit_object) as H
    by (vm_compute; reflexivity).
  split; [exact H|].
  exact (proj1 (proj2 (toEditObj_keeps_content soup_loaded soup_edit_object H))).
Defined.

Lemma create_stores_valid_recipe_witness :
  create false "r9" "t1" (sample_input ["img-1"; "img-2"]) sample_db
  = (Ok created, sample_db_created)
  ∧ _id created = "r9".
Proof.
  split; [exact sample_creation|].
  exact (proj1 (create_stores_valid_recipe false "r9" "t1"
                  (sample_input ["img-1"; "img-2"]) sample_db sample_db_created
                  created sample_creation)).
Defined.

Lemma created_recipe_owner_witness :
  exists owner r',
    i_createdBy (sample_input ["img-1"; "img-2"]) = Some owner
    ∧ findById "r9" true sample_db_created = Some r'
    ∧ forall user : IUser,
        isCreatedBy r' user = bool_decide (owner = user_id user)
        ∧ toJSONFor r' user !! "createdByUser"
          = Some (VBool (bool_decide (owner = user_id user))).
Proof.
  exact (created_recipe_owner false "r9" "t1"
           (sample_input ["img-1"; "img-2"]) sample_db sample_db_created
           created sample_creation).
Defined.

Lemma preloadRecipe_after_create_witness :
  i_banners (sample_input ["img-1"; "img-2"]) ≠ []
  ∧ exists r',
      preloadRecipe sample_request "r9" sample_db_created
      = (mkRequest (req_user sample_request) (Some r'), NextOk)
      ∧ _id r' = "r9"
      ∧ banners r' = BRef <$> i_banners (sample_input ["img-1"; "img-2"])
      ∧ image_url r' = VUndefined
      ∧ exists msg, toEditObj r' = Throw (TypeError msg).
Proof.
  assert (i_banners (sample_input ["img-1"; "img-2"]) ≠ []) as H
    by (simpl; discriminate).
  split; [exact H|].
  exact (preloadRecipe_after_create false "r9" "t1"
           (sample_input ["img-1"; "img-2"]) sample_db sample_db_created
           created sample_request sample_creation H).
Defined.

Lemma updateRating_summary_witness :
  filter (fun x => recipeId x = _id soup_loaded) (ratingDocs sample_db) ≠ []
  ∧ exists a,
      rating (receiver (updateRating false "t1" soup_loaded sample_db))
      = rating_summary a 2
      ∧ rating (receiver (updateRating false "t1" soup_loaded sample_db)) !! "total"
        = Some (VNum 2).
Proof.
  split; [exact soup_is_rated|].
  destruct (updateRating_summary false "t1" soup_loaded sample_db soup_is_rated)
    as (a & _ & Hr & _ & Ht & _).
  exists a. split; [exact Hr|exact Ht].
Defined.

Lemma updateRating_avg_bounds_witness :
  exists a,
    rating (receiver (updateRating false "t1" soup_loaded sample_db)) !! "avg"
    = Some (VNum a)
    ∧ (1 <= a)%Q ∧ (a <= 5)%Q.
Proof.
  apply (updateRating_avg_bounds false "t1" soup_loaded sample_db 1 5
           soup_is_rated).
  - change (filter (fun x => recipeId x = _id soup_loaded) (ratingDocs sample_db))
      with [mkRating "k1" "r1" 3; mkRating "k3" "r1" 5].
    constructor; [exists 3%Z|constructor; [exists 5%Z|constructor]];
      (split; [reflexivity|lia]).
  - vm_compute. discriminate.
Defined.

Lemma updateRating_invalid_recipe_witness :
  validate false nameless_soup sample_db ≠ []
  ∧ store (updateRating false "t1" nameless_soup sample_db) = sample_db.
Proof.
  assert (validate false nameless_soup sample_db ≠ []) as H
    by (intros H; vm_compute in H; discriminate H).
  split; [exact H|].
  exact (proj1 (proj2 (updateRating_invalid_recipe false "t1" nameless_soup
                         sample_db soup_is_rated H))).
Defined.

Lemma create_keeps_categories_witness :
  ("r9" ∉ _id <$> recipes sample_db)
  ∧ getCategories None sample_db_created = getCategories None sample_db.
Proof.
  assert ("r9" ∉ _id <$> recipes sample_db) as H
    by (apply (bool_decide_unpack _); vm_compute; exact I).
  split; [exact H|].
  exact (proj2 (create_keeps_categories false "r9" "t1"
                  (sample_input ["img-1"; "img-2"]) sample_db sample_db_created
                  created None H sample_creation)).
Defined.

Lemma getCategories_image_of_last_witness :
  exists e,
    e ∈ getCategories None sample_db
    ∧ e !! "_id" = Some (VStr "soup")
    ∧ e !! "image_url" = Some (VId "img-1").
Proof.
  apply (getCategories_image_of_last None sample_db [] [cake] soup "soup");
    [reflexivity|reflexivity|reflexivity|].
  constructor; [|constructor]. intros [H _]. discriminate H.
Defined.

Lemma create_accepts_any_banner_count_witness :
  valid_fields (sample_input five_banners) = true
  ∧ i_banners (sample_input five_banners) ≠ []
  ∧ checkImagesExist (i_banners (sample_input five_banners)) sample_db = true
  ∧ exists r db',
      create false "r9" "t1" (sample_input five_banners) sample_db = (Ok r, db')
      ∧ banner_ref <$> banners r = i_banners (sample_input five_banners)
      ∧ (exists d, d ∈ recipes db' ∧ _id d = "r9"
                   ∧ banners d = i_banners (sample_input five_banners)).
Proof.
  assert (valid_fields (sample_input five_banners) = true) as H1
    by (vm_compute; reflexivity).
  assert (i_banners (sample_input five_banners) ≠ []) as H2
    by (simpl; discriminate).
  assert (checkImagesExist (i_banners (sample_input five_banners)) sample_db
          = true) as H3
    by (vm_compute; reflexivity).
  split; [exact H1|]. split; [exact H2|]. split; [exact H3|].
  exact (create_accepts_any_banner_count false "r9" "t1"
           (sample_input five_banners) sample_db H1 H2 H3).
Defined.
